(** * BirdNET prediction service: one-shot endpoints and the realtime session

    A shallow embedding of [routes/predict.py] and [routes/streaming.py].

    Python floats that take part in comparisons only (confidences, elapsed
    seconds, the timeout budget, coordinates) are modelled by rationals: every
    finite binary float is a rational and the float comparisons agree with
    the rational ones.  Python integers are [Z].  Byte strings are
    [list byte]. *)

From Stdlib Require Import ZArith QArith Qminmax List String Bool Lia Sorting.Sorted Sorting.Permutation.
From stdpp Require Import gmap strings list fin_maps.
Import ListNotations.

Local Open Scope string_scope.
Local Open Scope Z_scope.
Local Open Scope list_scope.

(** ** models/detection.py *)

Record Detection := mkDetection {
  scientific_name : string;
  common_name : string;
  label : string;
  confidence : Q;
  start_time : Q;
  end_time : Q
}.

(** The call of the [Detection] model on a detection of the engine, as
    line 117 and line 219 of routes/predict.py make it: [None] when
    validation fails, which is when the confidence is outside [0, 1]
    ([ge=0.0, le=1.0], line 7). *)
Definition Detection_new (det : Detection) : option Detection :=
  if (Qle_bool 0 (confidence det) && Qle_bool (confidence det) 1)%bool
  then Some det else None.

(** The list comprehension over [Detection_new]: it raises at the first
    detection that fails validation. *)
Fixpoint Detection_all (dets : list Detection) : option (list Detection) :=
  match dets with
  | [] => Some []
  | det :: rest =>
      match Detection_new det with
      | None => None
      | Some d =>
          match Detection_all rest with
          | None => None
          | Some ds => Some (d :: ds)
          end
      end
  end.

(** ** Python built-ins used by both routes *)

Module Py.

(** [sorted(l, key=lambda d: d["confidence"], reverse=True)].  Python's sort
    is stable, also with [reverse=True]: elements with equal keys keep their
    original relative order.  A stable sort is determined by its input, so
    the insertion sort below computes the same list as the built-in. *)
Fixpoint insert_desc (d : Detection) (l : list Detection) : list Detection :=
  match l with
  | [] => [d]
  | x :: rest =>
      if Qle_bool (confidence x) (confidence d)
      then d :: x :: rest
      else x :: insert_desc d rest
  end.

Fixpoint sorted_by_confidence_desc (l : list Detection) : list Detection :=
  match l with
  | [] => []
  | d :: rest => insert_desc d (sorted_by_confidence_desc rest)
  end.

(** A [dict] keeps its keys in insertion order; [values()] iterates in that
    order.  It is an association list whose keys are pairwise distinct. *)
Definition dict (V : Type) : Type := list (string * V).

Fixpoint contains {V} (k : string) (d : dict V) : bool :=
  match d with
  | [] => false
  | (k', _) :: rest => if String.eqb k k' then true else contains k rest
  end.

(** [d[k] = v]: an existing key keeps its position, a new key goes last. *)
Fixpoint setitem {V} (d : dict V) (k : string) (v : V) : dict V :=
  match d with
  | [] => [(k, v)]
  | (k', v') :: rest =>
      if String.eqb k k' then (k', v) :: rest else (k', v') :: setitem rest k v
  end.

Definition keys {V} (d : dict V) : list string := map fst d.
Definition values {V} (d : dict V) : list V := map snd d.

End Py.

(** ** routes/predict.py *)

Module Predict.

(** The [for det in sorted_detections] loop of both endpoints. *)
Fixpoint best_per_species_loop (best_per_species : Py.dict Detection)
    (sorted_detections : list Detection) : Py.dict Detection :=
  match sorted_detections with
  | [] => best_per_species
  | det :: rest =>
      let species := scientific_name det in
      if negb (Py.contains species best_per_species)
      then best_per_species_loop (Py.setitem best_per_species species det) rest
      else best_per_species_loop best_per_species rest
  end.

(** Lines 110-115 and 212-217, the same in both endpoints: from the raw
    detections of the engine to the values of [best_per_species]. *)
Definition response (detections : list Detection) : list Detection :=
  let sorted_detections := Py.sorted_by_confidence_desc detections in
  let best_per_species := best_per_species_loop [] sorted_detections in
  Py.values best_per_species.

(** What the calls that leave the process answer: writing the upload to its
    temporary path ([Some text] when it raises) and the BirdNET analysis. *)
Inductive analysis_outcome :=
| AnalysisFailed (text : string)
| RawDetections (detections : list Detection).

Inductive http_response :=
| Ok200 (body : list Detection)
| HTTPError (status_code : Z) (detail : string).

(** How a request ends: a response of the handler, or an exception that no
    handler of the function catches. *)
Inductive outcome :=
| Responded (r : http_response)
| Unhandled (text : string).

(** [predict_from_file], lines 80-117, for a request that passed the bearer
    token check, the rate limit and the validation of its form fields.  The
    temporary file itself is followed in [Upload] below. *)
Definition predict_from_file (save_failure : option string)
    (analysis : analysis_outcome) : outcome :=
  match save_failure with
  | Some e => Responded (HTTPError 500 ("Failed to save uploaded file: " ++ e)%string)
  | None =>
      match analysis with
      | AnalysisFailed e =>
          Responded (HTTPError 500 ("BirdNET analysis failed: " ++ e)%string)
      | RawDetections detections =>
          match Detection_all (response detections) with
          | None => Unhandled "ValidationError"
          | Some body => Responded (Ok200 body)
          end
      end
  end.

(** [predict_from_stream], lines 182-219, under the same conditions. *)
Definition predict_from_stream (save_failure : option string)
    (analysis : analysis_outcome) : outcome :=
  match save_failure with
  | Some e => Responded (HTTPError 500 ("Failed to save stream data: " ++ e)%string)
  | None =>
      match analysis with
      | AnalysisFailed e =>
          Responded (HTTPError 500 ("BirdNET analysis failed: " ++ e)%string)
      | RawDetections detections =>
          match Detection_all (response detections) with
          | None => Unhandled "ValidationError"
          | Some body => Responded (Ok200 body)
          end
      end
  end.

End Predict.

(** ** routes/streaming.py *)

Module Streaming.

(** *** Control flow of the handler

    The handler is sequential Python with exceptions, [return] and
    [continue].  A statement is a function from the state before it to how
    it completes and the state after it. *)

Inductive exn :=
| WebSocketDisconnect
| AsyncioTimeoutError
| HTTPException (detail : string)
| Error (text : string).              (* any other [Exception] *)

(** [str(e)], as the f-strings of the error messages render it. *)
Definition str (e : exn) : string :=
  match e with
  | Error text => text
  | HTTPException detail => detail
  | WebSocketDisconnect | AsyncioTimeoutError => EmptyString
  end.

Inductive completion (A : Type) :=
| Normal (a : A)
| Raise (e : exn)
| Return_                              (* a [return] statement was executed *)
| Continue_.                           (* a [continue] statement was executed *)
Arguments Normal {A} a.
Arguments Raise {A} e.
Arguments Return_ {A}.
Arguments Continue_ {A}.

(** *** What the handler acts on *)

(** A file written by the [wave] module: header fields and frames. *)
Record wav_file := mkWav {
  nchannels : Z;
  sampwidth : Z;
  framerate : Z;
  frames : list Byte.byte
}.

Inductive message :=
| ErrorMsg (text : string)             (* {"error": text} *)
| TimeoutMsg                           (* {"timeout": True} *)
| DetectionsMsg (dets : list Detection). (* {"detections": [...]} *)

(** The observable actions of a session, oldest first in [trace]. *)
Inductive event :=
| Accepted                             (* websocket.accept() *)
| Sent (m : message)                   (* websocket.send_json(m) *)
| Closed (code : Z)                    (* websocket.close(code=code) *)
| Launching (threshold buffered : Z)   (* line 189: the window analysis starts,
                                          with len(buffer) at that point *)
| Analyzing (path : string) (audio : option wav_file)
            (lat lon : Q) (date : string) (min_conf : Q).
                                       (* Recording(analyzer, path, ...).analyze(),
                                          with what the file at [path] holds *)

Record state := mkState {
  buffer : list Byte.byte;             (* the local [buffer] *)
  next_window_bytes : Z;               (* the local [next_window_bytes] *)
  fs : gmap string wav_file;           (* the temporary files on disk *)
  trace : list event
}.

Definition M (A : Type) : Type := state -> completion A * state.

#[global] Instance M_ret : MRet M := fun A a s => (Normal a, s).
#[global] Instance M_bind : MBind M := fun A B k m s =>
  match m s with
  | (Normal a, s') => k a s'
  | (Raise e, s') => (Raise e, s')
  | (Return_, s') => (Return_, s')
  | (Continue_, s') => (Continue_, s')
  end.

Definition raise {A} (e : exn) : M A := fun s => (Raise e, s).
Definition return_ {A} : M A := fun s => (Return_, s).
Definition continue_ {A} : M A := fun s => (Continue_, s).
Definition get : M state := fun s => (Normal s, s).

(** [try: body / except ...: handler].  [handler e] is [None] when no
    [except] clause matches [e]. *)
Definition try_except {A} (body : M A) (handler : exn -> option (M A)) : M A :=
  fun s =>
    match body s with
    | (Raise e, s') =>
        match handler e with
        | Some h => h s'
        | None => (Raise e, s')
        end
    | r => r
    end.

(** [try: body / finally: final].  The [finally] block runs however the body
    completes, also on [return]; when it completes normally the completion of
    the body stands. *)
Definition try_finally {A} (body : M A) (final : M unit) : M A :=
  fun s =>
    let '(c, s') := body s in
    match final s' with
    | (Normal _, s'') => (c, s'')
    | (Raise e, s'') => (Raise e, s'')
    | (Return_, s'') => (Return_, s'')
    | (Continue_, s'') => (Continue_, s'')
    end.

Definition emit (e : event) : M unit :=
  fun s => (Normal tt, mkState (buffer s) (next_window_bytes s) (fs s) (trace s ++ [e])).
Definition set_buffer (b : list Byte.byte) : M unit :=
  fun s => (Normal tt, mkState b (next_window_bytes s) (fs s) (trace s)).
Definition set_next_window_bytes (n : Z) : M unit :=
  fun s => (Normal tt, mkState (buffer s) n (fs s) (trace s)).
Definition set_fs (f : gmap string wav_file) : M unit :=
  fun s => (Normal tt, mkState (buffer s) (next_window_bytes s) f (trace s)).

(** The transport.  [send_json] and [close] are taken to succeed: what they
    do on a connection that is already gone is left to the framework. *)
Definition accept : M unit := emit Accepted.
Definition send_json (m : message) : M unit := emit (Sent m).
Definition close (code : Z) : M unit := emit (Closed code).

Definition WS_1000_NORMAL_CLOSURE : Z := 1000.
Definition WS_1008_POLICY_VIOLATION : Z := 1008.
Definition WS_1011_INTERNAL_ERROR : Z := 1011.

(** [len(b)] and [b[:n]] on a byte string. *)
Definition len (b : list Byte.byte) : Z := Z.of_nat (length b).
Definition slice_to (b : list Byte.byte) (n : Z) : list Byte.byte :=
  if 0 <=? n then firstn (Z.to_nat n) b
  else firstn (length b - Z.to_nat (- n)) b.

(** *** What the environment does

    Every outcome of a call that leaves the process is an input of the model. *)

(** [tempfile.NamedTemporaryFile] followed by the [wave] calls, lines 34-40. *)
Inductive temp_outcome :=
| TempNotCreated (text : string)       (* NamedTemporaryFile raises: no file *)
| TempWriteFailed (name text : string) (* the file [name] exists, a wave call raises *)
| TempWritten (name : string).         (* the file [name] exists and is written *)

Inductive birdnet_outcome :=
| BirdnetFailed (text : string)        (* Recording(...) or analyze() raises *)
| BirdnetDetections (dets : list Detection).

(** [await asyncio.wait_for(websocket.receive_bytes(), timeout=1.0)]. *)
Inductive receive_outcome :=
| Received (msg : list Byte.byte)
| PollExpired                          (* asyncio.TimeoutError *)
| Disconnected                         (* WebSocketDisconnect *)
| ReceiveFailed (text : string).       (* any other exception, such as the
                                          one of a text frame *)

(** One pass through the body of [while True]: the clock reading of line 172
    and what each call to the outside answers, should the pass reach it. *)
Record tick := mkTick {
  elapsed : Q;
  inbound : receive_outcome;
  temp : temp_outcome;
  birdnet : birdnet_outcome
}.

(** [write_temp_wav], lines 21-40.  The file is created with [delete=False]:
    leaving the [with] block closes it and keeps it, also when a [wave] call
    raised.  What a failed write left in the file is recorded as no frames. *)
Definition write_temp_wav (o : temp_outcome) (data : list Byte.byte)
    (sample_rate channels sample_width : Z) : M string :=
  match o with
  | TempNotCreated text => raise (Error text)
  | TempWriteFailed name text =>
      s ← get;
      set_fs (<[name := mkWav channels sample_width sample_rate []]> (fs s)) ;;
      raise (Error text)
  | TempWritten name =>
      s ← get;
      set_fs (<[name := mkWav channels sample_width sample_rate data]> (fs s)) ;;
      mret name
  end.

(** [os.remove]: raises when there is no such file. *)
Definition os_remove (path : string) : M unit :=
  s ← get;
  match fs s !! path with
  | Some _ => set_fs (delete path (fs s))
  | None => raise (Error "FileNotFoundError")
  end.

(** [safe_remove], lines 41-48; the warning goes to the log only. *)
Definition safe_remove (path : string) : M unit :=
  try_except (os_remove path) (fun e => Some (mret tt)).

(** [run_birdnet_on_file], lines 50-56. *)
Definition run_birdnet_on_file (o : birdnet_outcome) (file_path : string)
    (lat lon : Q) (date : string) (min_conf : Q) : M (list Detection) :=
  s ← get;
  emit (Analyzing file_path (fs s !! file_path) lat lon date min_conf) ;;
  match o with
  | BirdnetFailed text => raise (Error text)
  | BirdnetDetections dets => mret dets
  end.

Definition receive_bytes (o : receive_outcome) : M (list Byte.byte) :=
  match o with
  | Received msg => mret msg
  | PollExpired => raise AsyncioTimeoutError
  | Disconnected => raise WebSocketDisconnect
  | ReceiveFailed text => raise (Error text)
  end.

(** *** The init payload *)

#[local] Set Warnings "-register-all".
Inductive json :=
| JNull
| JBool (b : bool)
| JNumber (q : Q)
| JString (s : string)
| JArray (items : list json)
| JObject (members : list (string * json)).

(** The value a decoded JSON object binds to a key: the last binding wins. *)
Fixpoint member (k : string) (members : list (string * json)) : option json :=
  match members with
  | [] => None
  | (k', v) :: rest =>
      match member k rest with
      | Some v' => Some v'
      | None => if String.eqb k k' then Some v else None
      end
  end.

(** What the handler takes from outside the module: the credential of
    [auth.py] and pydantic's conversion of a JSON value to a [float] and to a
    [datetime] ([None] when it rejects the value). *)
Record Deps := mkDeps {
  EXPECTED_TOKEN : string;
  float_validator : json -> option Q;
  datetime_validator : json -> option string
}.

Record RealtimeInit := mkRealtimeInit {
  init_lat : Q;
  init_lon : Q;
  init_date : option string;
  init_min_conf : Q;
  init_timeout : Q
}.

(** A [float] field: required or with a default, with its [ge]/[le] bounds. *)
Definition float_field (deps : Deps) (members : list (string * json)) (name : string)
    (default : option Q) (ge : option Q) (le : option Q) : option Q :=
  match member name members with
  | None => default
  | Some v =>
      match float_validator deps v with
      | None => None
      | Some x =>
          if match ge with Some lo => Qle_bool lo x | None => true end
             && match le with Some hi => Qle_bool x hi | None => true end
          then Some x else None
      end
  end.

(** [date: Optional[datetime] = Field(None)]: [Some None] when absent or null. *)
Definition date_field (deps : Deps) (members : list (string * json)) : option (option string) :=
  match member "date" members with
  | None | Some JNull => Some None
  | Some v =>
      match datetime_validator deps v with
      | Some d => Some (Some d)
      | None => None
      end
  end.

(** The call of [RealtimeInit] on the unpacked payload, lines 59-98 and 143:
    [None] when it raises (the payload is not a mapping, or validation
    fails). *)
Definition RealtimeInit_new (deps : Deps) (init_payload : json) : option RealtimeInit :=
  match init_payload with
  | JObject members =>
      match float_field deps members "lat" None (Some (-90 # 1)) (Some (90 # 1)),
            float_field deps members "lon" None (Some (-180 # 1)) (Some (180 # 1)),
            date_field deps members,
            float_field deps members "min_conf" (Some (25 # 100)) (Some 0%Q) (Some 1%Q),
            float_field deps members "timeout" (Some (30 # 1)) (Some 1%Q) None
      with
      | Some lat, Some lon, Some date, Some min_conf, Some timeout =>
          Some (mkRealtimeInit lat lon date min_conf timeout)
      | _, _, _, _, _ => None
      end
  | _ => None
  end.

(** [await asyncio.wait_for(websocket.receive_json(), timeout=10.0)]. *)
Inductive init_outcome :=
| InitReceived (payload : json)
| InitTimedOut                         (* asyncio.TimeoutError *)
| InitDisconnected                     (* WebSocketDisconnect *)
| InitReceiveFailed (text : string).   (* any other exception, such as the
                                          json.JSONDecodeError of a frame
                                          that is not JSON *)

Definition receive_json (o : init_outcome) : M json :=
  match o with
  | InitReceived payload => mret payload
  | InitTimedOut => raise AsyncioTimeoutError
  | InitDisconnected => raise WebSocketDisconnect
  | InitReceiveFailed text => raise (Error text)
  end.

(** *** The handler *)

Definition verify_token_or_close (deps : Deps) (token : string) : M unit :=
  if negb (String.eqb token (EXPECTED_TOKEN deps))
  then raise (HTTPException "Invalid token")
  else mret tt.

Definition SAMPLE_RATE : Z := 48000.
Definition CHANNELS : Z := 1.
Definition SAMPLE_WIDTH : Z := 2.
Definition WINDOW_SECONDS : Z := 3.
Definition WINDOW_BYTES : Z := SAMPLE_RATE * CHANNELS * SAMPLE_WIDTH * WINDOW_SECONDS.

(** The locals of the handler that the loop reads and never assigns. *)
Record settings := mkSettings {
  lat : Q;
  lon : Q;
  min_conf : Q;
  timeout_seconds : Q;
  recording_date : string
}.

(** The body of [while True], lines 172-215. *)
Definition loop_body (cfg : settings) (t : tick) : M unit :=
  if Qle_bool (timeout_seconds cfg) (elapsed t) then
    send_json TimeoutMsg ;;
    close WS_1000_NORMAL_CLOSURE ;;
    return_
  else
    msg ← try_except (receive_bytes (inbound t))
            (fun e => match e with
                      | AsyncioTimeoutError => Some continue_
                      | WebSocketDisconnect => Some return_
                      | _ => None
                      end);
    s ← get;
    set_buffer (buffer s ++ msg) ;;
    s ← get;
    if next_window_bytes s <=? len (buffer s) then
      emit (Launching (next_window_bytes s) (len (buffer s))) ;;
      wav_path ← try_except
                   (write_temp_wav (temp t) (slice_to (buffer s) (next_window_bytes s))
                      SAMPLE_RATE CHANNELS SAMPLE_WIDTH)
                   (fun e => Some (
                      send_json (ErrorMsg ("I/O error: " ++ str e)%string) ;;
                      close WS_1011_INTERNAL_ERROR ;;
                      return_));
      detections ← try_finally
                     (try_except
                        (run_birdnet_on_file (birdnet t) wav_path
                           (lat cfg) (lon cfg) (recording_date cfg) (min_conf cfg))
                        (fun e => Some (
                           safe_remove wav_path ;;
                           send_json (ErrorMsg ("BirdNET failed: " ++ str e)%string) ;;
                           close WS_1011_INTERNAL_ERROR ;;
                           return_)))
                     (safe_remove wav_path);
      send_json (DetectionsMsg (Py.sorted_by_confidence_desc detections)) ;;
      set_next_window_bytes (next_window_bytes s + WINDOW_BYTES)
    else
      mret tt.

(** [while True] over the passes the environment drives.  The loop has no
    exit of its own: it ends by [return] or by an exception.  [Normal] means
    that the passes given are used up and the handler is still in the loop. *)
Fixpoint while_true (cfg : settings) (ticks : list tick) : M unit :=
  match ticks with
  | [] => mret tt
  | t :: rest =>
      fun s =>
        match loop_body cfg t s with
        | (Normal _, s') | (Continue_, s') => while_true cfg rest s'
        | (Raise e, s') => (Raise e, s')
        | (Return_, s') => (Return_, s')
        end
  end.

(** One connection: what the client and the environment do. *)
Record connection := mkConnection {
  token : string;
  init : init_outcome;
  today : string;                      (* datetime.now(timezone.utc).date() *)
  ticks : list tick
}.

(** [websocket_realtime], lines 111-222. *)
Definition websocket_realtime (deps : Deps) (c : connection) : M unit :=
  accept ;;
  try_except (verify_token_or_close deps (token c))
    (fun e => match e with
              | HTTPException _ => Some (close WS_1008_POLICY_VIOLATION ;; return_)
              | _ => None
              end) ;;
  init_payload ← try_except (receive_json (init c))
                   (fun e => match e with
                             | AsyncioTimeoutError | WebSocketDisconnect =>
                                 Some (close WS_1008_POLICY_VIOLATION ;; return_)
                             | _ => None
                             end);
  init ← match RealtimeInit_new deps init_payload with
         | Some init => mret init
         | None =>
             send_json (ErrorMsg "Invalid init payload") ;;
             close WS_1008_POLICY_VIOLATION ;;
             return_
         end;
  let cfg := mkSettings (init_lat init) (init_lon init) (init_min_conf init)
               (init_timeout init)
               (match init_date init with
                | None => today c
                | Some d => d
                end) in
  set_buffer [] ;;
  set_next_window_bytes WINDOW_BYTES ;;
  try_except (while_true cfg (ticks c))
    (fun e => match e with
              | WebSocketDisconnect => Some return_
              | _ => Some (
                  send_json (ErrorMsg ("Server error: " ++ str e)%string) ;;
                  close WS_1011_INTERNAL_ERROR ;;
                  return_)
              end).

(** The state a connection starts from: nothing sent, no temporary file.
    The locals [buffer] and [next_window_bytes] are bound at lines 166 and
    168 only; until then the state holds an empty buffer and 0 for them. *)
Definition fresh : state := mkState [] 0 ∅ [].

Definition session (deps : Deps) (c : connection) : completion unit * state :=
  websocket_realtime deps c fresh.

(** *** Reading a trace *)

Definition sent (tr : list event) : list message :=
  omap (fun e => match e with Sent m => Some m | _ => None end) tr.

Definition closes (tr : list event) : list Z :=
  omap (fun e => match e with Closed code => Some code | _ => None end) tr.

(** The windows whose analysis started: threshold and buffer length. *)
Definition launches (tr : list event) : list (Z * Z) :=
  omap (fun e => match e with Launching t b => Some (t, b) | _ => None end) tr.

(** The audio handed to the inference engine, call by call. *)
Definition analyses (tr : list event) : list (option wav_file) :=
  omap (fun e => match e with Analyzing _ audio _ _ _ _ => Some audio | _ => None end) tr.

Definition is_detections (m : message) : bool :=
  match m with DetectionsMsg _ => true | _ => false end.

End Streaming.

(** ** routes/predict.py with its temporary file *)

Module Upload.

(** [TMP_DIR] of deps.py. *)
Definition TMP_DIR : string := "/tmp/birdnet_uploads".

Fixpoint ends_with_slash (s : string) : bool :=
  match s with
  | EmptyString => false
  | String c rest =>
      match rest with
      | EmptyString => String.eqb (String c EmptyString) "/"
      | String _ _ => ends_with_slash rest
      end
  end.

(** [os.path.join(a, b)] on a POSIX system. *)
Definition path_join (a b : string) : string :=
  if String.prefix "/" b then b
  else if (String.eqb a EmptyString || ends_with_slash a)%bool then (a ++ b)%string
  else (a ++ "/" ++ b)%string.

(** [open(tmp_path, "wb")] followed by the copy of the upload. *)
Inductive save_outcome :=
| OpenFailed (text : string)           (* open raises: no file *)
| WriteFailed (written : list Byte.byte) (text : string)
                                       (* the file exists, the copy raises *)
| Saved.                               (* the file holds the upload *)

(** [os.remove]: [None] when it raises because there is no such file. *)
Definition os_remove (path : string) (disk : gmap string (list Byte.byte))
    : option (gmap string (list Byte.byte)) :=
  match disk !! path with
  | Some _ => Some (delete path disk)
  | None => None
  end.

(** What the two endpoints do once [tmp_path] is chosen. *)
Definition serve (tmp_path save_detail : string) (upload : list Byte.byte)
    (save : save_outcome) (analysis : Predict.analysis_outcome)
    (disk : gmap string (list Byte.byte)) : Predict.outcome * gmap string (list Byte.byte) :=
  match save with
  | OpenFailed e =>
      (Predict.Responded (Predict.HTTPError 500 (save_detail ++ e)%string), disk)
  | WriteFailed written e =>
      (Predict.Responded (Predict.HTTPError 500 (save_detail ++ e)%string),
       <[tmp_path := written]> disk)
  | Saved =>
      let disk := <[tmp_path := upload]> disk in
      match analysis with
      | Predict.AnalysisFailed e =>
          match os_remove tmp_path disk with
          | None => (Predict.Unhandled "FileNotFoundError", disk)
          | Some disk =>
              (Predict.Responded (Predict.HTTPError 500 ("BirdNET analysis failed: " ++ e)%string),
               disk)
          end
      | Predict.RawDetections detections =>
          match os_remove tmp_path disk with
          | None => (Predict.Unhandled "FileNotFoundError", disk)
          | Some disk =>
              match Detection_all (Predict.response detections) with
              | None => (Predict.Unhandled "ValidationError", disk)
              | Some body => (Predict.Responded (Predict.Ok200 body), disk)
              end
          end
      end
  end.

(** [predict_from_file], lines 80-117: [hex] is [uuid.uuid4().hex]. *)
Definition predict_from_file (hex filename : string) :=
  let unique_name := (hex ++ "_" ++ filename)%string in
  let tmp_path := path_join TMP_DIR unique_name in
  serve tmp_path "Failed to save uploaded file: ".

(** [predict_from_stream], lines 182-219. *)
Definition predict_from_stream (hex : string) :=
  let unique_name := (hex ++ "_stream.wav")%string in
  let tmp_path := path_join TMP_DIR unique_name in
  serve tmp_path "Failed to save stream data: ".

End Upload.

(** * The streaming client (ws_client.py) *)

Module Client.

Definition lat : Q := 6044324706064409 # 100000000000000.
Definition lon : Q := 222632729407483 # 10000000000000.

(** The init payload of lines 22-27, as the server decodes it. *)
Definition init_payload : Streaming.json :=
  Streaming.JObject
    [("lat", Streaming.JNumber lat);
     ("lon", Streaming.JNumber lon);
     ("min_conf", Streaming.JNumber (8 # 10));
     ("timeout", Streaming.JNumber (30 # 1))].

(** [int(48000 * 2 * 1 * 0.5)], line 42. *)
Definition chunk_size : Z := 48000.

Definition len (b : list Byte.byte) : Z := Z.of_nat (length b).

(** [b[lo : hi]] for [0 <= lo], the only case the client reaches: the bytes
    from position [lo] up to position [hi], as many as there are. *)
Definition slice (b : list Byte.byte) (lo hi : Z) : list Byte.byte :=
  firstn (Z.to_nat (hi - lo)) (skipn (Z.to_nat lo) b).

(** What the client sends and prints. *)
Inductive event :=
| SentText (payload : Streaming.json)
| SentBytes (chunk : list Byte.byte)
| PrintedSentInit
| PrintedLoaded (total_len : Z)
| PrintedReceived (resp : string)
| PrintedFinished
| PrintedReceivedAtEnd (resp : string).

(** [await ws.send(...)]. *)
Inductive send_outcome :=
| Delivered
| SendRaises (text : string).

(** [await asyncio.wait_for(ws.recv(), timeout=0.1)] and [await ws.recv()]. *)
Inductive recv_outcome :=
| Response (resp : string)
| TimeoutError                         (* asyncio.TimeoutError *)
| RecvRaises (text : string).          (* any other exception *)

(** One pass through the body of the [while] of line 45. *)
Record pass := mkPass {
  sending : send_outcome;
  polling : recv_outcome
}.

Inductive completion :=
| InLoop                               (* the passes given end before the loop does *)
| LoopEnded                            (* the test of line 45 fails *)
| Returned
| Raised (text : string).

Record state := mkState {
  idx : Z;
  log : list event
}.

Definition emit (s : state) (evs : list event) : state :=
  mkState (idx s) (log s ++ evs).

(** The loop of lines 45-56. *)
Fixpoint while_loop (pcm_bytes : list Byte.byte) (passes : list pass) (s : state)
    : completion * state :=
  let total_len := len pcm_bytes in
  if idx s <? total_len then
    match passes with
    | [] => (InLoop, s)
    | p :: rest =>
        let chunk := slice pcm_bytes (idx s) (idx s + chunk_size) in
        match sending p with
        | SendRaises e => (Raised e, s)
        | Delivered =>
            let s := mkState (idx s + len chunk) (log s ++ [SentBytes chunk]) in
            match polling p with
            | Response resp => (Returned, emit s [PrintedReceived resp])
            | TimeoutError => while_loop pcm_bytes rest s
            | RecvRaises e => (Raised e, s)
            end
        end
    end
  else (LoopEnded, s).

(** One run of the client once it is connected and the audio is loaded:
    what the sends and the receives do. *)
Record run := mkRun {
  init_send : send_outcome;
  passes : list pass;
  last_recv : recv_outcome
}.

(** [realtime_client] from line 22 on, given the PCM data of line 36. *)
Definition realtime_client (pcm_bytes : list Byte.byte) (r : run) : completion * state :=
  match init_send r with
  | SendRaises e => (Raised e, mkState 0 [])
  | Delivered =>
      let s := mkState 0 [SentText init_payload; PrintedSentInit;
                          PrintedLoaded (len pcm_bytes)] in
      match while_loop pcm_bytes (passes r) s with
      | (LoopEnded, s) =>
          let s := emit s [PrintedFinished] in
          match last_recv r with
          | Response resp => (Returned, emit s [PrintedReceivedAtEnd resp])
          | TimeoutError | RecvRaises _ => (Returned, s)
          end
      | r => r
      end
  end.

(** The binary messages of a log, in order. *)
Fixpoint chunks (l : list event) : list (list Byte.byte) :=
  match l with
  | [] => []
  | SentBytes chunk :: rest => chunk :: chunks rest
  | _ :: rest => chunks rest
  end.

(** A pass in which the chunk is sent and no response arrives in time. *)
Definition unanswered : pass := mkPass Delivered TimeoutError.

Definition answered (resp : string) : pass := mkPass Delivered (Response resp).

End Client.
(** Non-increasing confidence. *)
Definition conf_ge (a b : Detection) : Prop := (confidence b <= confidence a)%Q.

(** ** The per-species selection *)

(** What the loop of the endpoints keeps of a list, given the species already
    in the dictionary: the first detection of every species not yet seen. *)
Fixpoint firsts (seen : list string) (l : list Detection) : list Detection :=
  match l with
  | [] => []
  | d :: rest =>
      if in_dec string_dec (scientific_name d) seen
      then firsts seen rest
      else d :: firsts (seen ++ [scientific_name d]) rest
  end.


(** ** Reading a session *)

(** The window analysed at the [i]-th boundary: the temporary file that holds
    the first [i * WINDOW_BYTES] bytes of a buffer. *)
Definition window (b : list Byte.byte) (i : nat) : Streaming.wav_file :=
  Streaming.mkWav Streaming.CHANNELS Streaming.SAMPLE_WIDTH Streaming.SAMPLE_RATE
    (firstn (Z.to_nat (Z.of_nat i * Streaming.WINDOW_BYTES)) b).

Definition threshold (i : nat) : Z := Z.of_nat i * Streaming.WINDOW_BYTES.

(** The state after a statement that appends [evs] to the trace. *)
Definition after (s : Streaming.state) (b : list Byte.byte) (n : Z)
    (f : gmap string Streaming.wav_file) (evs : list Streaming.event) : Streaming.state :=
  Streaming.mkState b n f (Streaming.trace s ++ evs).

(** A buffer of [n] zero bytes. *)
Definition silence (n : Z) : list Byte.byte := repeat Byte.x00 (Z.to_nat n).

(** The state of a session that is in its loop after [k] windows. *)
Definition running (k : nat) (s : Streaming.state) : Prop :=
  map fst (Streaming.launches (Streaming.trace s)) = map threshold (seq 1 k) /\
  Streaming.analyses (Streaming.trace s)
    = map (fun i => Some (window (Streaming.buffer s) i)) (seq 1 k) /\
  Forall (fun lb => fst lb <= snd lb) (Streaming.launches (Streaming.trace s)) /\
  threshold k <= Streaming.len (Streaming.buffer s) /\
  Streaming.next_window_bytes s = threshold (S k) /\
  Streaming.closes (Streaming.trace s) = [] /\
  Forall (fun m => Streaming.is_detections m = true) (Streaming.sent (Streaming.trace s)) /\
  length (Streaming.sent (Streaming.trace s)) = k /\
  Streaming.fs s = ∅.

(** What holds of the windows of a session in any state, ended or not:
    [k] analyses were started, the first [c] of them reached the engine. *)
Definition settled (k c : nat) (s : Streaming.state) : Prop :=
  (c <= k)%nat /\
  map fst (Streaming.launches (Streaming.trace s)) = map threshold (seq 1 k) /\
  Streaming.analyses (Streaming.trace s)
    = map (fun i => Some (window (Streaming.buffer s) i)) (seq 1 c) /\
  Forall (fun lb => fst lb <= snd lb) (Streaming.launches (Streaming.trace s)) /\
  threshold k <= Streaming.len (Streaming.buffer s).

(** The settings a connection streams with, once its token and its init
    payload are accepted. *)
Definition settings_of (i : Streaming.RealtimeInit) (today : string) : Streaming.settings :=
  Streaming.mkSettings (Streaming.init_lat i) (Streaming.init_lon i)
    (Streaming.init_min_conf i) (Streaming.init_timeout i)
    (match Streaming.init_date i with None => today | Some d => d end).

Definition streams (deps : Streaming.Deps) (c : Streaming.connection)
    (cfg : Streaming.settings) : Prop :=
  String.eqb (Streaming.token c) (Streaming.EXPECTED_TOKEN deps) = true /\
  exists payload i,
    Streaming.init c = Streaming.InitReceived payload /\
    Streaming.RealtimeInit_new deps payload = Some i /\
    cfg = settings_of i (Streaming.today c).

(** The state in which the loop is entered, line 170. *)
Definition opened : Streaming.state :=
  Streaming.mkState [] Streaming.WINDOW_BYTES ∅ [Streaming.Accepted].

(** The [except] clauses of lines 217-222 applied to how the loop ended. *)
Definition outer (r : Streaming.completion unit * Streaming.state)
    : Streaming.completion unit * Streaming.state :=
  match r with
  | (Streaming.Raise Streaming.WebSocketDisconnect, s) => (Streaming.Return_, s)
  | (Streaming.Raise e, s) =>
      (Streaming.Return_,
       after s (Streaming.buffer s) (Streaming.next_window_bytes s) (Streaming.fs s)
         [Streaming.Sent (Streaming.ErrorMsg ("Server error: " ++ Streaming.str e)%string);
          Streaming.Closed Streaming.WS_1011_INTERNAL_ERROR])
  | r => r
  end.

(** One entry per species of [raw], each the best of its species. *)
Definition one_best_per_species (raw out : list Detection) : Prop :=
  NoDup (map scientific_name out) /\
  (forall sp, In sp (map scientific_name out) <-> In sp (map scientific_name raw)) /\
  (forall e, In e out ->
     In e raw /\
     forall d, In d raw -> scientific_name d = scientific_name e ->
               (confidence d <= confidence e)%Q).

Definition has_confidence (q : Q) (d : Detection) : bool := Qeq_bool (confidence d) q.

(** A pass whose window analysis, once started, fails: the temporary file
    is not written, or the engine raises. *)
Definition analysis_fails (t : Streaming.tick) : bool :=
  match Streaming.temp t, Streaming.birdnet t with
  | Streaming.TempWritten _, Streaming.BirdnetDetections _ => false
  | _, _ => true
  end.

(** A pass that brings no audio while the session is within its budget. *)
Definition silent_pass (cfg : Streaming.settings) (t : Streaming.tick) : Prop :=
  (Streaming.elapsed t < Streaming.timeout_seconds cfg)%Q /\
  (Streaming.inbound t = Streaming.PollExpired \/
   Streaming.inbound t = Streaming.Received []).

(** ** Sample connections *)

Module Sample.
Import Streaming.

Definition deps : Deps :=
  mkDeps "secret"
    (fun j => match j with JNumber q => Some q | _ => None end)
    (fun j => match j with JString s => Some s | _ => None end).

Definition payload : json :=
  JObject [("lat", JNumber (6044 # 100)); ("lon", JNumber (2226 # 100))].

(** An init payload without the required [lon]. *)
Definition payload_without_lon : json :=
  JObject [("lat", JNumber (6044 # 100)); ("min_conf", JNumber (8 # 10))].

Definition cfg : settings :=
  mkSettings (6044 # 100) (2226 # 100) (25 # 100) (30 # 1) "2025-06-01".

Definition connect (first : init_outcome) (passes : list tick) : connection :=
  mkConnection "secret" first "2025-06-01" passes.

(** A binary message of [n] bytes at [at_] seconds, with what the temporary
    file and the engine do if a window is analysed in that pass. *)
Definition chunk (at_ : Q) (n : Z) (o : temp_outcome) (b : birdnet_outcome) : tick :=
  mkTick at_ (Received (silence n)) o b.

(** A pass at [at_] seconds in which no message arrives within the poll. *)
Definition idle (at_ : Q) : tick :=
  mkTick at_ PollExpired (TempNotCreated "unused") (BirdnetFailed "unused").

Definition hangup (at_ : Q) : tick :=
  mkTick at_ Disconnected (TempNotCreated "unused") (BirdnetFailed "unused").

Definition analyzing (name : string) (frames : list Byte.byte) : event :=
  Analyzing name (Some (mkWav CHANNELS SAMPLE_WIDTH SAMPLE_RATE frames))
    (lat cfg) (lon cfg) (recording_date cfg) (min_conf cfg).

(** One message of exactly one window, analysed without failure. *)
Definition first_window : tick :=
  chunk 0 288000 (TempWritten "w1.wav") (BirdnetDetections []).

Definition after_first_window : state :=
  mkState (silence 288000) 576000 ∅
    [Accepted; Launching 288000 288000; analyzing "w1.wav" (silence 288000);
     Sent (DetectionsMsg [])].

(** A second message of one window, on which the engine raises. *)
Definition second_window_fails : tick :=
  chunk 1 288000 (TempWritten "w2.wav") (BirdnetFailed "boom").

Definition third_window : tick :=
  chunk 2 288000 (TempWritten "w3.wav") (BirdnetDetections []).

End Sample.

(** A pass whose message, if any, is no longer than one window. *)
Definition small_chunk (t : Streaming.tick) : Prop :=
  match Streaming.inbound t with
  | Streaming.Received msg => Streaming.len msg <= Streaming.WINDOW_BYTES
  | _ => True
  end.

(** ** More ways to read a session *)

(** The bytes of the binary messages of some passes, in order. *)
Definition messages (passes : list Streaming.tick) : list Byte.byte :=
  concat (map (fun t => match Streaming.inbound t with
                        | Streaming.Received msg => msg
                        | _ => []
                        end) passes).

(** The number of passes in which a binary message arrives. *)
Definition received_count (passes : list Streaming.tick) : nat :=
  length (List.filter (fun t => match Streaming.inbound t with
                                | Streaming.Received _ => true
                                | _ => false
                                end) passes).

(** How the trace of a session can end: with nothing, with a close alone,
    or with one message that is not a detections message and a close. *)
Definition ending (tail : list Streaming.event) : Prop :=
  tail = [] \/
  tail = [Streaming.Closed Streaming.WS_1008_POLICY_VIOLATION] \/
  tail = [Streaming.Sent (Streaming.ErrorMsg "Invalid init payload");
          Streaming.Closed Streaming.WS_1008_POLICY_VIOLATION] \/
  tail = [Streaming.Sent Streaming.TimeoutMsg;
          Streaming.Closed Streaming.WS_1000_NORMAL_CLOSURE] \/
  exists text,
    tail = [Streaming.Sent (Streaming.ErrorMsg text);
            Streaming.Closed Streaming.WS_1011_INTERNAL_ERROR].

(** An event that neither sends nor closes. *)
Definition silent_event (e : Streaming.event) : Prop :=
  match e with
  | Streaming.Sent _ | Streaming.Closed _ => False
  | _ => True
  end.

(** A call of the engine with the settings [cfg] on a mono, 16-bit, 48 kHz
    file; any other event. *)
Definition analysed_with (cfg : Streaming.settings) (e : Streaming.event) : Prop :=
  match e with
  | Streaming.Analyzing _ audio la lo d mc =>
      la = Streaming.lat cfg /\ lo = Streaming.lon cfg /\
      d = Streaming.recording_date cfg /\ mc = Streaming.min_conf cfg /\
      exists w, audio = Some w /\
                Streaming.nchannels w = 1 /\ Streaming.sampwidth w = 2 /\
                Streaming.framerate w = 48000
  | _ => True
  end.

(** A detections message lists its detections by non-increasing confidence. *)
Definition well_sorted (m : Streaming.message) : Prop :=
  match m with
  | Streaming.DetectionsMsg dets => StronglySorted conf_ge dets
  | _ => True
  end.

(** ** More ways to read a response *)

(** [d] is of the species of [e] and has the confidence of [e]. *)
Definition rivals (e d : Detection) : bool :=
  String.eqb (scientific_name d) (scientific_name e)
  && Qeq_bool (confidence d) (confidence e).

(** A confidence the [Detection] model accepts. *)
Definition in_unit_range (d : Detection) : Prop := (0 <= confidence d <= 1)%Q.

(** An analysis whose detections, if any, all have such a confidence. *)
Definition plausible (analysis : Predict.analysis_outcome) : Prop :=
  match analysis with
  | Predict.RawDetections raw => Forall in_unit_range raw
  | Predict.AnalysisFailed _ => True
  end.

(** The text of the exception of a save that failed. *)
Definition save_failure (save : Upload.save_outcome) : option string :=
  match save with
  | Upload.Saved => None
  | Upload.OpenFailed e | Upload.WriteFailed _ e => Some e
  end.

(** A chunk the client may send: not empty, and of at most [chunk_size]
    bytes. *)
Definition proper_chunk (c : list Byte.byte) : Prop :=
  0 < Client.len c <= Client.chunk_size.

(** The first [n] chunks of [chunk_size] bytes of the data from position
    [lo] on. *)
Fixpoint pieces (b : list Byte.byte) (lo : Z) (n : nat) : list (list Byte.byte) :=
  match n with
  | O => []
  | S n => Client.slice b lo (lo + Client.chunk_size)
           :: pieces b (lo + Client.chunk_size) n
  end.

(** What the client sends and prints before its loop. *)
Definition preamble (pcm_bytes : list Byte.byte) : list Client.event :=
  [Client.SentText Client.init_payload; Client.PrintedSentInit;
   Client.PrintedLoaded (Client.len pcm_bytes)].

(** What a one-shot endpoint answers when the response passes validation:
    status 500 with [detail] and the text of a failed save, status 500 for a
    failed analysis, or status 200 with the per-species selection. *)
Definition answer (detail : string) (failure : option string)
    (analysis : Predict.analysis_outcome) : Predict.http_response :=
  match failure with
  | Some e => Predict.HTTPError 500 (detail ++ e)%string
  | None =>
      match analysis with
      | Predict.AnalysisFailed e =>
          Predict.HTTPError 500 ("BirdNET analysis failed: " ++ e)%string
      | Predict.RawDetections raw => Predict.Ok200 (Predict.response raw)
      end
  end.
Section SortFacts.

Lemma insert_desc_perm d l : Permutation (d :: l) (Py.insert_desc d l).
Proof.
  induction l as [|x rest IH]; simpl; [reflexivity|].
  destruct (Qle_bool (confidence x) (confidence d)); [reflexivity|].
  rewrite perm_swap. now apply perm_skip.
Qed.

Lemma sorted_perm l : Permutation l (Py.sorted_by_confidence_desc l).
Proof.
  induction l as [|d rest IH]; simpl; [constructor|].
  etransitivity; [apply perm_skip, IH | apply insert_desc_perm].
Qed.

Lemma sorted_In l d : In d (Py.sorted_by_confidence_desc l) <-> In d l.
Proof.
  split; apply Permutation_in; [symmetry|]; apply sorted_perm.
Qed.

Lemma insert_desc_sorted d l :
  StronglySorted conf_ge l -> StronglySorted conf_ge (Py.insert_desc d l).
Proof.
  induction 1 as [|x rest Hs IH Hall]; simpl.
  - repeat constructor.
  - destruct (Qle_bool (confidence x) (confidence d)) eqn:E.
    + apply Qle_bool_iff in E. constructor; [now constructor|].
      constructor; [exact E|].
      eapply Forall_impl; [exact Hall|]. unfold conf_ge. intros a Ha.
      now apply Qle_trans with (confidence x).
    + constructor; [exact IH|].
      assert (Hlt : (confidence d < confidence x)%Q).
      { apply Qnot_le_lt. intros H. apply Qle_bool_iff in H. congruence. }
      apply (Permutation_Forall (insert_desc_perm d rest)).
      constructor; [now apply Qlt_le_weak | exact Hall].
Qed.

Lemma sorted_sorted l : StronglySorted conf_ge (Py.sorted_by_confidence_desc l).
Proof.
  induction l; simpl; [constructor | now apply insert_desc_sorted].
Qed.

(** The sort is stable: detections of equal confidence keep their order. *)
Lemma insert_desc_stable q d l :
  List.filter (has_confidence q) (Py.insert_desc d l) = List.filter (has_confidence q) (d :: l).
Proof.
  induction l as [|x rest IH]; [reflexivity|].
  cbn [Py.insert_desc].
  destruct (Qle_bool (confidence x) (confidence d)) eqn:E; [reflexivity|].
  cbn [List.filter] in *. rewrite IH.
  destruct (has_confidence q d) eqn:Ed, (has_confidence q x) eqn:Ex; try reflexivity.
  unfold has_confidence in *. apply Qeq_bool_iff in Ed, Ex.
  assert (H : Qle_bool (confidence x) (confidence d) = true).
  { apply Qle_bool_iff. rewrite Ed, Ex. apply Qle_refl. }
  congruence.
Qed.

Lemma sorted_stable q l :
  List.filter (has_confidence q) (Py.sorted_by_confidence_desc l)
  = List.filter (has_confidence q) l.
Proof.
  induction l as [|d rest IH]; [reflexivity|].
  cbn [Py.sorted_by_confidence_desc]. rewrite insert_desc_stable.
  cbn [List.filter]. now rewrite IH.
Qed.

End SortFacts.

Section DictFacts.
Context {V : Type}.

Lemma contains_keys (k : string) (d : Py.dict V) :
  Py.contains k d = true <-> In k (Py.keys d).
Proof.
  induction d as [|[k' v'] rest IH]; simpl; [split; [discriminate | tauto]|].
  destruct (String.eqb_spec k k') as [->|Hne]; [tauto|].
  rewrite IH. split; [tauto | intros [E|H]; [congruence | exact H]].
Qed.

Lemma setitem_new (k : string) (v : V) (d : Py.dict V) :
  Py.contains k d = false -> Py.setitem d k v = d ++ [(k, v)].
Proof.
  induction d as [|[k' v'] rest IH]; simpl; [reflexivity|].
  destruct (String.eqb k k'); [discriminate|].
  intros H. now rewrite IH.
Qed.

End DictFacts.

Section SelectionFacts.

Lemma best_per_species_loop_firsts acc l :
  Predict.best_per_species_loop acc l
  = acc ++ map (fun d => (scientific_name d, d)) (firsts (Py.keys acc) l).
Proof.
  revert acc. induction l as [|d rest IH]; intros acc; simpl.
  - now rewrite app_nil_r.
  - destruct (Py.contains (scientific_name d) acc) eqn:E; simpl.
    + destruct (in_dec string_dec (scientific_name d) (Py.keys acc)) as [_|Hn].
      * apply IH.
      * apply contains_keys in E. contradiction.
    + destruct (in_dec string_dec (scientific_name d) (Py.keys acc)) as [Hi|_].
      * apply contains_keys in Hi. congruence.
      * rewrite IH, setitem_new by exact E.
        unfold Py.keys. rewrite map_app, <- app_assoc. reflexivity.
Qed.

Lemma response_firsts raw :
  Predict.response raw = firsts [] (Py.sorted_by_confidence_desc raw).
Proof.
  unfold Predict.response, Py.values.
  rewrite best_per_species_loop_firsts. simpl.
  rewrite map_map. simpl. apply map_id.
Qed.

Lemma firsts_In seen l e :
  In e (firsts seen l) -> In e l /\ ~ In (scientific_name e) seen.
Proof.
  revert seen. induction l as [|d rest IH]; intros seen; simpl; [tauto|].
  destruct (in_dec string_dec (scientific_name d) seen) as [Hi|Hn].
  - intros H. apply IH in H. tauto.
  - intros [->|H]; [tauto|].
    apply IH in H. destruct H as [H1 H2]. split; [tauto|].
    intros H3. apply H2. apply in_or_app. now left.
Qed.

Lemma firsts_NoDup seen l : NoDup (map scientific_name (firsts seen l)).
Proof.
  revert seen. induction l as [|d rest IH]; intros seen; simpl; [constructor|].
  destruct (in_dec string_dec (scientific_name d) seen) as [Hi|Hn]; [apply IH|].
  simpl. constructor; [|apply IH].
  intros H. apply list_elem_of_In, in_map_iff in H. destruct H as [e [He Hin]].
  apply firsts_In in Hin. destruct Hin as [_ Hnot]. apply Hnot.
  apply in_or_app. right. simpl. now left.
Qed.

Lemma firsts_covers seen l sp :
  In sp (map scientific_name l) -> ~ In sp seen ->
  In sp (map scientific_name (firsts seen l)).
Proof.
  revert seen. induction l as [|d rest IH]; intros seen; simpl; [tauto|].
  intros Hin Hseen.
  destruct (in_dec string_dec (scientific_name d) seen) as [Hi|Hn].
  - destruct Hin as [E|Hin]; [congruence|]. now apply IH.
  - simpl. destruct (string_dec (scientific_name d) sp) as [E|Hne]; [now left|].
    right. destruct Hin as [E|Hin]; [contradiction|].
    apply IH; [exact Hin|].
    intros H. apply in_app_or in H. destruct H as [H|[H|[]]]; congruence.
Qed.

Lemma firsts_sorted seen l :
  StronglySorted conf_ge l -> StronglySorted conf_ge (firsts seen l).
Proof.
  intros Hs. revert seen. induction Hs as [|d rest Hs IH Hall]; intros seen; simpl.
  - constructor.
  - destruct (in_dec string_dec (scientific_name d) seen); [apply IH|].
    constructor; [apply IH|].
    apply Forall_forall. intros e He. apply list_elem_of_In, firsts_In in He.
    rewrite Forall_forall in Hall. apply Hall, list_elem_of_In. tauto.
Qed.

Lemma firsts_best seen l e d :
  StronglySorted conf_ge l -> In e (firsts seen l) -> In d l ->
  scientific_name d = scientific_name e -> conf_ge e d.
Proof.
  intros Hs. revert seen. induction Hs as [|x rest Hs IH Hall]; intros seen; simpl; [tauto|].
  rewrite Forall_forall in Hall.
  destruct (in_dec string_dec (scientific_name x) seen) as [Hi|Hn].
  - intros He [->|Hd] Hname.
    + apply firsts_In in He. rewrite <- Hname in He. tauto.
    + now apply (IH seen).
  - intros [->|He] [->|Hd] Hname.
    + unfold conf_ge. apply Qle_refl.
    + now apply Hall, list_elem_of_In.
    + apply firsts_In in He. destruct He as [_ Hnot]. exfalso. apply Hnot.
      apply in_or_app. right. simpl. now left.
    + now apply (IH (seen ++ [scientific_name x])).
Qed.

End SelectionFacts.

(** ** The loop body, case by case *)

Ltac exec :=
  repeat (progress (
    unfold mbind, Streaming.M_bind, mret, Streaming.M_ret,
      Streaming.send_json, Streaming.close, Streaming.accept, Streaming.emit,
      Streaming.return_, Streaming.continue_, Streaming.raise, Streaming.get,
      Streaming.set_buffer, Streaming.set_next_window_bytes, Streaming.set_fs,
      Streaming.try_except, Streaming.try_finally, Streaming.write_temp_wav,
      Streaming.run_birdnet_on_file, Streaming.receive_bytes,
      Streaming.receive_json, Streaming.verify_token_or_close;
    cbn -[Streaming.len Streaming.slice_to Z.leb Streaming.safe_remove
          Streaming.WINDOW_BYTES Streaming.while_true Streaming.RealtimeInit_new
          String.eqb])).

Section Steps.
Import Streaming.

Lemma WINDOW_BYTES_eq : WINDOW_BYTES = 288000.
Proof. reflexivity. Qed.

Lemma len_app b1 b2 : len (b1 ++ b2) = len b1 + len b2.
Proof. unfold len. rewrite length_app. lia. Qed.

Lemma len_nonneg b : 0 <= len b.
Proof. unfold len. lia. Qed.

Lemma len_silence n : 0 <= n -> len (silence n) = n.
Proof. intros H. unfold len, silence. rewrite repeat_length. lia. Qed.

Lemma slice_to_firstn b n : 0 <= n -> slice_to b n = firstn (Z.to_nat n) b.
Proof. intros H. unfold slice_to. destruct (Z.leb_spec 0 n); [reflexivity | lia]. Qed.

Lemma safe_remove_present path s w :
  fs s !! path = Some w ->
  safe_remove path s
  = (Normal tt, mkState (buffer s) (next_window_bytes s) (delete path (fs s)) (trace s)).
Proof.
  intros H. unfold safe_remove, os_remove. exec. rewrite H. reflexivity.
Qed.

Lemma safe_remove_absent path s :
  fs s !! path = None -> safe_remove path s = (Normal tt, s).
Proof.
  intros H. unfold safe_remove, os_remove. exec. rewrite H. reflexivity.
Qed.

Variable cfg : settings.
Variable t : tick.
Variable s : state.

Lemma loop_body_timeout :
  Qle_bool (timeout_seconds cfg) (elapsed t) = true ->
  loop_body cfg t s
  = (Return_, after s (buffer s) (next_window_bytes s) (fs s)
                [Sent TimeoutMsg; Closed WS_1000_NORMAL_CLOSURE]).
Proof.
  intros H. unfold loop_body. rewrite H. unfold after. exec.
  now rewrite <- app_assoc.
Qed.

Hypothesis in_time : Qle_bool (timeout_seconds cfg) (elapsed t) = false.

Lemma loop_body_poll_expired :
  inbound t = PollExpired -> loop_body cfg t s = (Continue_, s).
Proof. intros H. unfold loop_body. rewrite in_time, H. now exec. Qed.

Lemma loop_body_disconnected :
  inbound t = Disconnected -> loop_body cfg t s = (Return_, s).
Proof. intros H. unfold loop_body. rewrite in_time, H. now exec. Qed.

Lemma loop_body_receive_failed text :
  inbound t = ReceiveFailed text -> loop_body cfg t s = (Raise (Error text), s).
Proof. intros H. unfold loop_body. rewrite in_time, H. now exec. Qed.

Variable msg : list Byte.byte.
Hypothesis received : inbound t = Received msg.

Lemma loop_body_below :
  len (buffer s ++ msg) < next_window_bytes s ->
  loop_body cfg t s
  = (Normal tt, mkState (buffer s ++ msg) (next_window_bytes s) (fs s) (trace s)).
Proof.
  intros H. unfold loop_body. rewrite in_time, received. exec.
  destruct (Z.leb_spec (next_window_bytes s) (len (buffer s ++ msg))); [lia|].
  reflexivity.
Qed.

Hypothesis crossed : next_window_bytes s <= len (buffer s ++ msg).

Let launching : event := Launching (next_window_bytes s) (len (buffer s ++ msg)).

Lemma loop_body_temp_not_created text :
  temp t = TempNotCreated text ->
  loop_body cfg t s
  = (Return_, after s (buffer s ++ msg) (next_window_bytes s) (fs s)
                [launching; Sent (ErrorMsg ("I/O error: " ++ text)%string);
                 Closed WS_1011_INTERNAL_ERROR]).
Proof.
  intros H. unfold loop_body. rewrite in_time, received. exec.
  destruct (Z.leb_spec (next_window_bytes s) (len (buffer s ++ msg))); [|lia].
  rewrite H. unfold after. exec. now rewrite <- !app_assoc.
Qed.

Lemma loop_body_temp_write_failed name text :
  temp t = TempWriteFailed name text ->
  loop_body cfg t s
  = (Return_, after s (buffer s ++ msg) (next_window_bytes s)
                (<[name := mkWav CHANNELS SAMPLE_WIDTH SAMPLE_RATE []]> (fs s))
                [launching; Sent (ErrorMsg ("I/O error: " ++ text)%string);
                 Closed WS_1011_INTERNAL_ERROR]).
Proof.
  intros H. unfold loop_body. rewrite in_time, received. exec.
  destruct (Z.leb_spec (next_window_bytes s) (len (buffer s ++ msg))); [|lia].
  rewrite H. unfold after. exec. now rewrite <- !app_assoc.
Qed.

Variable name : string.
Hypothesis written : temp t = TempWritten name.

Let audio : wav_file :=
  mkWav CHANNELS SAMPLE_WIDTH SAMPLE_RATE (slice_to (buffer s ++ msg) (next_window_bytes s)).
Let analyzing : event :=
  Analyzing name (Some audio) (lat cfg) (lon cfg) (recording_date cfg) (min_conf cfg).

Lemma loop_body_birdnet_failed text :
  birdnet t = BirdnetFailed text ->
  loop_body cfg t s
  = (Return_, after s (buffer s ++ msg) (next_window_bytes s)
                (delete name (<[name := audio]> (fs s)))
                [launching; analyzing; Sent (ErrorMsg ("BirdNET failed: " ++ text)%string);
                 Closed WS_1011_INTERNAL_ERROR]).
Proof.
  intros H. unfold loop_body. rewrite in_time, received. exec.
  destruct (Z.leb_spec (next_window_bytes s) (len (buffer s ++ msg))); [|lia].
  rewrite written. exec. rewrite lookup_insert_eq, H. exec.
  erewrite safe_remove_present by (cbn; apply lookup_insert_eq). exec.
  rewrite safe_remove_absent by (cbn; apply lookup_delete_eq).
  unfold after. exec. now rewrite <- !app_assoc.
Qed.

Lemma loop_body_window dets :
  birdnet t = BirdnetDetections dets ->
  loop_body cfg t s
  = (Normal tt, after s (buffer s ++ msg) (next_window_bytes s + WINDOW_BYTES)
                  (delete name (<[name := audio]> (fs s)))
                  [launching; analyzing;
                   Sent (DetectionsMsg (Py.sorted_by_confidence_desc dets))]).
Proof.
  intros H. unfold loop_body. rewrite in_time, received. exec.
  destruct (Z.leb_spec (next_window_bytes s) (len (buffer s ++ msg))); [|lia].
  rewrite written. exec. rewrite lookup_insert_eq, H. exec.
  erewrite safe_remove_present by (cbn; apply lookup_insert_eq).
  unfold after. exec. now rewrite <- !app_assoc.
Qed.

End Steps.

(** ** Invariants of the loop *)

Ltac loop_body_cases cfg t s :=
  let Htime := fresh "Htime" in
  let Hin := fresh "Hin" in
  let Hlen := fresh "Hlen" in
  let Htemp := fresh "Htemp" in
  let Hbird := fresh "Hbird" in
  let msg := fresh "msg" in
  let text := fresh "text" in
  let name := fresh "name" in
  let dets := fresh "dets" in
  destruct (Qle_bool (Streaming.timeout_seconds cfg) (Streaming.elapsed t)) eqn:Htime;
  [ rewrite (loop_body_timeout cfg t s Htime)
  | destruct (Streaming.inbound t) as [msg| | |text] eqn:Hin;
    [ destruct (Z_lt_le_dec (Streaming.len (Streaming.buffer s ++ msg))
                 (Streaming.next_window_bytes s)) as [Hlen|Hlen];
      [ rewrite (loop_body_below cfg t s Htime msg Hin Hlen)
      | destruct (Streaming.temp t) as [text|name text|name] eqn:Htemp;
        [ rewrite (loop_body_temp_not_created cfg t s Htime msg Hin Hlen text Htemp)
        | rewrite (loop_body_temp_write_failed cfg t s Htime msg Hin Hlen name text Htemp)
        | destruct (Streaming.birdnet t) as [text|dets] eqn:Hbird;
          [ rewrite (loop_body_birdnet_failed cfg t s Htime msg Hin Hlen name Htemp text Hbird)
          | rewrite (loop_body_window cfg t s Htime msg Hin Hlen name Htemp dets Hbird) ] ] ]
    | rewrite (loop_body_poll_expired cfg t s Htime Hin)
    | rewrite (loop_body_disconnected cfg t s Htime Hin)
    | rewrite (loop_body_receive_failed cfg t s Htime text Hin) ] ].

Section TraceFacts.
Import Streaming.

Lemma sent_app tr evs : sent (tr ++ evs) = sent tr ++ sent evs.
Proof. apply omap_app. Qed.
Lemma closes_app tr evs : closes (tr ++ evs) = closes tr ++ closes evs.
Proof. apply omap_app. Qed.
Lemma launches_app tr evs : launches (tr ++ evs) = launches tr ++ launches evs.
Proof. apply omap_app. Qed.
Lemma analyses_app tr evs : analyses (tr ++ evs) = analyses tr ++ analyses evs.
Proof. apply omap_app. Qed.

End TraceFacts.

Ltac tidy :=
  rewrite ?launches_app, ?analyses_app, ?sent_app, ?closes_app, ?seq_S, ?map_app;
  cbn -[Streaming.len Streaming.slice_to Streaming.WINDOW_BYTES seq threshold window
        Nat.add];
  rewrite ?app_nil_r.

Section Invariants.
Import Streaming.

Lemma threshold_S k : threshold (S k) = threshold k + WINDOW_BYTES.
Proof. unfold threshold. lia. Qed.

Lemma threshold_mono i k : (i <= k)%nat -> threshold i <= threshold k.
Proof. unfold threshold. rewrite WINDOW_BYTES_eq. lia. Qed.

Lemma threshold_nonneg k : 0 <= threshold k.
Proof. unfold threshold. rewrite WINDOW_BYTES_eq. lia. Qed.

Lemma window_app b msg i :
  threshold i <= len b -> window (b ++ msg) i = window b i.
Proof.
  intros H. unfold window. f_equal. fold (threshold i).
  rewrite List.firstn_app.
  replace (Z.to_nat (threshold i) - length b)%nat with 0%nat
    by (unfold len in H; lia).
  simpl. apply app_nil_r.
Qed.

Lemma windows_app b msg k :
  threshold k <= len b ->
  map (fun i => Some (window (b ++ msg) i)) (seq 1 k)
  = map (fun i => Some (window b i)) (seq 1 k).
Proof.
  intros H. apply map_ext_in. intros i Hi. apply in_seq in Hi.
  rewrite window_app; [reflexivity|].
  etransitivity; [apply (threshold_mono i k); lia | exact H].
Qed.

Lemma window_slice b k :
  mkWav CHANNELS SAMPLE_WIDTH SAMPLE_RATE (slice_to b (threshold k)) = window b k.
Proof.
  unfold window. rewrite slice_to_firstn by apply threshold_nonneg. reflexivity.
Qed.

Lemma window_length b k :
  threshold k <= len b -> len (frames (window b k)) = threshold k.
Proof.
  intros H. pose proof (threshold_nonneg k).
  unfold window, len in *. fold (threshold k). simpl.
  rewrite length_firstn. lia.
Qed.

Lemma running_opened : running 0 opened.
Proof.
  unfold running, opened; cbn -[WINDOW_BYTES]. repeat split; try constructor.
  all: unfold threshold, len; cbn -[WINDOW_BYTES]; lia.
Qed.

Lemma running_settled k s : running k s -> settled k k s.
Proof. unfold running, settled. intuition. Qed.

(** A pass that leaves the session in the loop keeps it [running]; a pass
    that ends the session leaves its windows [settled]. *)
Lemma loop_body_running cfg t k s :
  running k s ->
  match loop_body cfg t s with
  | (Normal _, s') | (Continue_, s') => running k s' \/ running (S k) s'
  | (_, s') => exists k' c, settled k' c s'
  end.
Proof.
  intros (Hth & Han & Hle & Hbuf & Hnext & Hcl & Hdet & Hcount & Hfs).
  assert (Hgrow : forall msg, threshold k <= len (buffer s ++ msg)).
  { intros msg. rewrite len_app. pose proof (len_nonneg msg). lia. }
  loop_body_cases cfg t s; unfold after; cbn [trace buffer next_window_bytes fs].
  - exists k, k. unfold settled; cbn [trace buffer]. tidy. auto.
  - left. unfold running; cbn [trace buffer next_window_bytes fs].
    rewrite windows_app by exact Hbuf. auto 10.
  - exists (S k), k. unfold settled; cbn [trace buffer]. tidy.
    rewrite Hth, windows_app by exact Hbuf. rewrite Hnext. repeat split; auto.
    + apply Forall_app. split; [exact Hle|]. repeat constructor. cbn -[len]. lia.
    + lia.
  - exists (S k), k. unfold settled; cbn [trace buffer]. tidy.
    rewrite Hth, windows_app by exact Hbuf. rewrite Hnext. repeat split; auto.
    + apply Forall_app. split; [exact Hle|]. repeat constructor. cbn -[len]. lia.
    + lia.
  - exists (S k), (S k). unfold settled; cbn [trace buffer]. tidy.
    rewrite Hth, Han, windows_app by exact Hbuf. rewrite Hnext, window_slice.
    repeat split; auto.
    + apply Forall_app. split; [exact Hle|]. repeat constructor. cbn -[len]. lia.
    + lia.
  - right. unfold running; cbn [trace buffer next_window_bytes fs]. tidy.
    rewrite Hth, Han, windows_app by exact Hbuf.
    rewrite Hnext, window_slice, Hcl, Hfs, length_app, Hcount.
    repeat split; auto.
    + apply Forall_app. split; [exact Hle|]. repeat constructor. cbn -[len]. lia.
    + lia.
    + symmetry. apply threshold_S.
    + apply Forall_app. split; [exact Hdet|]. repeat constructor.
    + cbn. lia.
    + apply delete_insert_id, lookup_empty.
  - left. unfold running. auto 10.
  - exists k, k. unfold settled. auto.
  - exists k, k. unfold settled. auto.
Qed.

End Invariants.

(** ** The loop and the handler as a whole *)

Section Session.
Import Streaming.

Lemma while_true_app cfg pre post s :
  while_true cfg (pre ++ post) s
  = match while_true cfg pre s with
    | (Normal _, s') => while_true cfg post s'
    | r => r
    end.
Proof.
  revert s. induction pre as [|t pre IH]; intros s; [reflexivity|].
  cbn [while_true app].
  destruct (loop_body cfg t s) as [[[]|e| |] s']; auto.
Qed.

Lemma while_true_never_continues cfg ticks s s' :
  while_true cfg ticks s <> (Continue_, s').
Proof.
  revert s. induction ticks as [|t rest IH]; intros s; cbn [while_true].
  - discriminate.
  - destruct (loop_body cfg t s) as [[[]|e| |] s1]; auto; discriminate.
Qed.

Lemma while_true_running cfg ticks k s :
  running k s ->
  match while_true cfg ticks s with
  | (Normal _, s') => exists k', running k' s'
  | (_, s') => exists k' c, settled k' c s'
  end.
Proof.
  revert k s. induction ticks as [|t rest IH]; intros k s Hrun.
  - exists k. exact Hrun.
  - cbn [while_true]. pose proof (loop_body_running cfg t k s Hrun) as Hstep.
    destruct (loop_body cfg t s) as [[[]|e| |] s1]; auto;
      destruct Hstep as [H|H]; eapply IH; exact H.
Qed.

Lemma settled_quiet k c s evs :
  settled k c s -> launches evs = [] -> analyses evs = [] ->
  settled k c (after s (buffer s) (next_window_bytes s) (fs s) evs).
Proof.
  unfold settled, after; cbn [trace buffer]. intros H Hl Ha.
  rewrite launches_app, analyses_app, Hl, Ha, !app_nil_r. exact H.
Qed.

Lemma outer_settled r :
  (exists k c, settled k c (snd r)) -> exists k c, settled k c (snd (outer r)).
Proof.
  destruct r as [[[]|e| |] s]; cbn [outer snd]; auto.
  intros (k & c & H). destruct e; cbn [snd]; eauto;
    exists k, c; now apply settled_quiet.
Qed.

(** How a session goes up to the loop. *)
Lemma session_bad_token deps c :
  String.eqb (token c) (EXPECTED_TOKEN deps) = false ->
  session deps c
  = (Return_, mkState [] 0 ∅ [Accepted; Closed WS_1008_POLICY_VIOLATION]).
Proof.
  intros H. unfold session, websocket_realtime. exec. rewrite H. now exec.
Qed.

Section TokenAccepted.
Variables (deps : Deps) (c : connection).
Hypothesis token_ok : String.eqb (token c) (EXPECTED_TOKEN deps) = true.

Lemma session_init_timed_out :
  init c = InitTimedOut ->
  session deps c
  = (Return_, mkState [] 0 ∅ [Accepted; Closed WS_1008_POLICY_VIOLATION]).
Proof.
  intros H. unfold session, websocket_realtime. exec. rewrite token_ok, H. now exec.
Qed.

Lemma session_init_disconnected :
  init c = InitDisconnected ->
  session deps c
  = (Return_, mkState [] 0 ∅ [Accepted; Closed WS_1008_POLICY_VIOLATION]).
Proof.
  intros H. unfold session, websocket_realtime. exec. rewrite token_ok, H. now exec.
Qed.

Lemma session_init_receive_failed text :
  init c = InitReceiveFailed text ->
  session deps c = (Raise (Error text), mkState [] 0 ∅ [Accepted]).
Proof.
  intros H. unfold session, websocket_realtime. exec. rewrite token_ok, H. now exec.
Qed.

Lemma session_init_invalid payload :
  init c = InitReceived payload ->
  RealtimeInit_new deps payload = None ->
  session deps c
  = (Return_, mkState [] 0 ∅
                [Accepted; Sent (ErrorMsg "Invalid init payload");
                 Closed WS_1008_POLICY_VIOLATION]).
Proof.
  intros H Hinv. unfold session, websocket_realtime. exec.
  rewrite token_ok, H. exec. rewrite Hinv. now exec.
Qed.

End TokenAccepted.

Lemma session_streams deps c cfg :
  streams deps c cfg ->
  session deps c = outer (while_true cfg (ticks c) opened).
Proof.
  intros (Htok & payload & i & Hinit & Hvalid & ->).
  unfold session, websocket_realtime. exec. rewrite Htok, Hinit. exec.
  rewrite Hvalid. exec. fold opened. unfold settings_of, outer.
  destruct (while_true _ (ticks c) opened) as [[[]|e| |] s']; try reflexivity.
  destruct e; exec; unfold after; rewrite <- ?app_assoc; reflexivity.
Qed.

(** Every connection either never reaches the loop or streams. *)
Lemma session_cases deps c :
  (exists cfg, streams deps c cfg) \/
  (launches (trace (snd (session deps c))) = [] /\
   analyses (trace (snd (session deps c))) = [] /\
   buffer (snd (session deps c)) = [] /\
   fs (snd (session deps c)) = ∅).
Proof.
  destruct (String.eqb (token c) (EXPECTED_TOKEN deps)) eqn:Htok.
  - destruct (init c) as [payload| | |text] eqn:Hinit.
    + destruct (RealtimeInit_new deps payload) as [i|] eqn:Hvalid.
      * left. exists (settings_of i (today c)). unfold streams. eauto 10.
      * right. rewrite (session_init_invalid deps c Htok payload Hinit Hvalid). auto.
    + right. rewrite (session_init_timed_out deps c Htok Hinit). auto.
    + right. rewrite (session_init_disconnected deps c Htok Hinit). auto.
    + right. rewrite (session_init_receive_failed deps c Htok text Hinit). auto.
  - right. rewrite (session_bad_token deps c Htok). auto.
Qed.

Lemma session_settled deps c : exists k n, settled k n (snd (session deps c)).
Proof.
  destruct (session_cases deps c) as [[cfg Hs]|(Hl & Ha & Hb & _)].
  - rewrite (session_streams deps c cfg Hs). apply outer_settled.
    pose proof (while_true_running cfg (ticks c) 0 opened running_opened) as H.
    destruct (while_true cfg (ticks c) opened) as [[[]|e| |] s']; cbn [snd]; auto.
    destruct H as [k H]. exists k, k. now apply running_settled.
  - exists 0%nat, 0%nat. unfold settled. rewrite Hl, Ha, Hb. cbn.
    repeat split; auto. unfold threshold, len. cbn. lia.
Qed.

End Session.

(** ** Passes of the loop *)

Section Runs.
Import Streaming.

Lemma in_time_iff cfg t :
  Qle_bool (timeout_seconds cfg) (elapsed t) = false
  <-> (elapsed t < timeout_seconds cfg)%Q.
Proof.
  split.
  - intros H. apply Qnot_le_lt. intros Hle. apply Qle_bool_iff in Hle. congruence.
  - intros H. destruct (Qle_bool (timeout_seconds cfg) (elapsed t)) eqn:E; [|reflexivity].
    apply Qle_bool_iff in E. now apply Qlt_not_le in H.
Qed.

Variable cfg : settings.
Variable t : tick.
Variable rest : list tick.
Variable s : state.

Lemma while_true_timeout :
  (timeout_seconds cfg <= elapsed t)%Q ->
  while_true cfg (t :: rest) s
  = (Return_, after s (buffer s) (next_window_bytes s) (fs s)
                [Sent TimeoutMsg; Closed WS_1000_NORMAL_CLOSURE]).
Proof.
  intros H. apply Qle_bool_iff in H. cbn [while_true].
  now rewrite (loop_body_timeout cfg t s H).
Qed.

Hypothesis in_time : (elapsed t < timeout_seconds cfg)%Q.

Lemma while_true_poll_expired :
  inbound t = PollExpired -> while_true cfg (t :: rest) s = while_true cfg rest s.
Proof.
  intros H. apply in_time_iff in in_time. cbn [while_true].
  now rewrite (loop_body_poll_expired cfg t s in_time H).
Qed.

Lemma while_true_disconnected :
  inbound t = Disconnected -> while_true cfg (t :: rest) s = (Return_, s).
Proof.
  intros H. apply in_time_iff in in_time. cbn [while_true].
  now rewrite (loop_body_disconnected cfg t s in_time H).
Qed.

Variable msg : list Byte.byte.
Hypothesis received : inbound t = Received msg.

Lemma while_true_below :
  len (buffer s ++ msg) < next_window_bytes s ->
  while_true cfg (t :: rest) s
  = while_true cfg rest (mkState (buffer s ++ msg) (next_window_bytes s) (fs s) (trace s)).
Proof.
  intros H. apply in_time_iff in in_time. cbn [while_true].
  now rewrite (loop_body_below cfg t s in_time msg received H).
Qed.

Hypothesis crossed : next_window_bytes s <= len (buffer s ++ msg).

Lemma while_true_analysis_fails :
  analysis_fails t = true ->
  exists f audio text,
    while_true cfg (t :: rest) s
    = (Return_, after s (buffer s ++ msg) (next_window_bytes s) f
                  (Launching (next_window_bytes s) (len (buffer s ++ msg))
                   :: audio ++ [Sent (ErrorMsg text); Closed WS_1011_INTERNAL_ERROR]))
    /\ launches audio = [] /\ sent audio = [] /\ closes audio = [].
Proof.
  intros H. apply in_time_iff in in_time. cbn [while_true]. unfold analysis_fails in H.
  destruct (temp t) as [text|name text|name] eqn:Htemp.
  - rewrite (loop_body_temp_not_created cfg t s in_time msg received crossed text Htemp).
    eexists _, [], _. split; [reflexivity | auto].
  - rewrite (loop_body_temp_write_failed cfg t s in_time msg received crossed name text Htemp).
    eexists _, [], _. split; [reflexivity | auto].
  - destruct (birdnet t) as [text|dets] eqn:Hbird; [|discriminate].
    rewrite (loop_body_birdnet_failed cfg t s in_time msg received crossed name Htemp text Hbird).
    eexists _, [_], _. split; [reflexivity | auto].
Qed.

Lemma while_true_window name dets :
  temp t = TempWritten name -> birdnet t = BirdnetDetections dets ->
  fs s !! name = None ->
  while_true cfg (t :: rest) s
  = while_true cfg rest
      (after s (buffer s ++ msg) (next_window_bytes s + WINDOW_BYTES) (fs s)
         [Launching (next_window_bytes s) (len (buffer s ++ msg));
          Analyzing name
            (Some (mkWav CHANNELS SAMPLE_WIDTH SAMPLE_RATE
                     (slice_to (buffer s ++ msg) (next_window_bytes s))))
            (lat cfg) (lon cfg) (recording_date cfg) (min_conf cfg);
          Sent (DetectionsMsg (Py.sorted_by_confidence_desc dets))]).
Proof.
  intros Htemp Hbird Hfree. apply in_time_iff in in_time. cbn [while_true].
  rewrite (loop_body_window cfg t s in_time msg received crossed name Htemp dets Hbird).
  now rewrite delete_insert_id by exact Hfree.
Qed.

End Runs.

Section Quiet.
Import Streaming.

(** Passes without audio leave the session as it entered the loop. *)
Lemma while_true_silent cfg pre :
  Forall (silent_pass cfg) pre -> while_true cfg pre opened = (Normal tt, opened).
Proof.
  induction 1 as [|t pre [Htime [Hin|Hin]] _ IH]; [reflexivity| |].
  - now rewrite while_true_poll_expired.
  - rewrite (while_true_below cfg t pre opened Htime [] Hin); [exact IH|].
    unfold opened, len. cbn -[WINDOW_BYTES]. rewrite WINDOW_BYTES_eq. lia.
Qed.

Lemma loop_body_fs cfg t s :
  fs s = ∅ ->
  (forall name text, temp t <> TempWriteFailed name text) ->
  fs (snd (loop_body cfg t s)) = ∅.
Proof.
  intros Hfs Hno. loop_body_cases cfg t s; unfold after; cbn [snd fs]; auto.
  - now destruct (Hno name text).
  - rewrite Hfs. apply delete_insert_id, lookup_empty.
  - rewrite Hfs. apply delete_insert_id, lookup_empty.
Qed.

Lemma while_true_fs cfg passes s :
  fs s = ∅ ->
  Forall (fun t => forall name text, temp t <> TempWriteFailed name text) passes ->
  fs (snd (while_true cfg passes s)) = ∅.
Proof.
  intros Hfs Hall. revert s Hfs.
  induction Hall as [|t rest Ht _ IH]; intros s Hfs; [exact Hfs|].
  cbn [while_true]. pose proof (loop_body_fs cfg t s Hfs Ht) as Hstep.
  destruct (loop_body cfg t s) as [[[]|e| |] s1]; cbn [snd] in *; auto.
Qed.

(** When no write of a window file fails half-way, a session leaves no
    temporary file behind, however it ends. *)
Lemma session_removes_temp_files deps c :
  Forall (fun t => forall name text, temp t <> TempWriteFailed name text) (ticks c) ->
  fs (snd (session deps c)) = ∅.
Proof.
  intros Hall. destruct (session_cases deps c) as [[cfg Hs]|(_ & _ & _ & H)]; [|exact H].
  rewrite (session_streams deps c cfg Hs).
  pose proof (while_true_fs cfg (ticks c) opened eq_refl Hall) as H.
  destruct (while_true cfg (ticks c) opened) as [[[]|e| |] s']; cbn [snd outer] in *; auto.
  destruct e; exact H.
Qed.

(** A pass starts at most one window analysis. *)
Lemma loop_body_one_launch cfg t s :
  (length (launches (trace (snd (loop_body cfg t s))))
   <= S (length (launches (trace s))))%nat.
Proof.
  loop_body_cases cfg t s; unfold after; cbn [snd trace];
    rewrite ?launches_app, ?length_app; cbn; lia.
Qed.

End Quiet.

(** ** Messages of at most one window *)

Section SmallChunks.
Import Streaming.

(** With messages of at most 288000 bytes the single test of line 188 keeps
    up with the buffer: the next threshold is never reached when the handler
    goes back to reading. *)
Lemma loop_body_keeps_up cfg t k s :
  running k s -> len (buffer s) < threshold (S k) -> small_chunk t ->
  match loop_body cfg t s with
  | (Normal _, s') | (Continue_, s') =>
      exists k', running k' s' /\ len (buffer s') < threshold (S k')
  | _ => True
  end.
Proof.
  intros Hrun Hlt Hsmall.
  pose proof (loop_body_running cfg t k s Hrun) as Hstep.
  assert (Hnext : next_window_bytes s = threshold (S k)) by apply Hrun.
  unfold small_chunk in Hsmall. revert Hstep.
  loop_body_cases cfg t s; unfold after; auto; intros [H|H].
  - exists k. split; [exact H|]. cbn [buffer]. lia.
  - exfalso. destruct H as (_ & _ & _ & Hb & _). cbn [buffer] in Hb. lia.
  - exfalso. destruct H as (_ & _ & _ & _ & Hn & _). cbn [next_window_bytes] in Hn.
    rewrite Hnext, threshold_S in Hn. rewrite WINDOW_BYTES_eq in Hn. lia.
  - exists (S k). split; [exact H|]. cbn [buffer].
    rewrite len_app, (threshold_S (S k)). lia.
  - exists k. split; [exact H | exact Hlt].
  - exfalso. destruct H as (_ & _ & _ & Hb & _). lia.
Qed.

Lemma while_true_keeps_up cfg passes k s s' :
  running k s -> len (buffer s) < threshold (S k) -> Forall small_chunk passes ->
  while_true cfg passes s = (Normal tt, s') ->
  exists k', running k' s' /\ len (buffer s') < threshold (S k').
Proof.
  intros Hrun Hlt Hall. revert k s Hrun Hlt.
  induction Hall as [|t rest Ht _ IH]; intros k s Hrun Hlt Hend.
  - injection Hend as <-. eauto.
  - cbn [while_true] in Hend.
    pose proof (loop_body_keeps_up cfg t k s Hrun Hlt Ht) as Hstep.
    destruct (loop_body cfg t s) as [[[]|e| |] s1]; try discriminate;
      destruct Hstep as (k1 & Hrun1 & Hlt1); eapply IH; eauto.
Qed.

(** While such a session is in its loop, it has analysed one window per
    288000 bytes received. *)
Lemma small_chunks_one_analysis_per_window cfg passes s' :
  Forall small_chunk passes ->
  while_true cfg passes opened = (Normal tt, s') ->
  Z.of_nat (length (analyses (trace s'))) = len (buffer s') / WINDOW_BYTES.
Proof.
  intros Hall Hend.
  destruct (while_true_keeps_up cfg passes 0 opened s' running_opened) as (k & Hrun & Hlt);
    [unfold opened, threshold, len; cbn -[WINDOW_BYTES]; rewrite WINDOW_BYTES_eq; lia
    | exact Hall | exact Hend |].
  destruct Hrun as (_ & Han & _ & Hb & _).
  rewrite Han, length_map, length_seq.
  unfold threshold in *. rewrite WINDOW_BYTES_eq in *.
  apply Z.div_unique with (r := len (buffer s') - Z.of_nat k * 288000); lia.
Qed.

End SmallChunks.

(** ** The sample connections, pass by pass *)

Section SampleFacts.
Import Streaming.

Lemma firstn_repeat_le {A} (x : A) (n m : nat) :
  (n <= m)%nat -> firstn n (repeat x m) = repeat x n.
Proof.
  revert m. induction n as [|n IH]; intros [|m] H; cbn; try reflexivity; try lia.
  f_equal. apply IH. lia.
Qed.

Lemma firstn_silence n m :
  0 <= n <= m -> firstn (Z.to_nat n) (silence m) = silence n.
Proof.
  intros H. unfold silence. apply firstn_repeat_le. lia.
Qed.

Lemma silence_app n m :
  0 <= n -> 0 <= m -> silence n ++ silence m = silence (n + m).
Proof.
  intros Hn Hm. unfold silence. rewrite <- repeat_app. f_equal. lia.
Qed.

Lemma sample_streams first passes :
  first = InitReceived Sample.payload ->
  streams Sample.deps (Sample.connect first passes) Sample.cfg.
Proof.
  intros ->. split; [reflexivity|].
  exists Sample.payload, (mkRealtimeInit (6044 # 100) (2226 # 100) None (25 # 100) (30 # 1)).
  repeat split; reflexivity.
Qed.

Lemma sample_payload_without_lon :
  RealtimeInit_new Sample.deps Sample.payload_without_lon = None.
Proof. reflexivity. Qed.

(** The first window, from a first message of [n] bytes. *)
Lemma sample_first_window at_ n name dets rest :
  (at_ < 30 # 1)%Q -> 288000 <= n ->
  while_true Sample.cfg
    (Sample.chunk at_ n (TempWritten name) (BirdnetDetections dets) :: rest) opened
  = while_true Sample.cfg rest
      (mkState (silence n) 576000 ∅
         [Accepted; Launching 288000 n; Sample.analyzing name (silence 288000);
          Sent (DetectionsMsg (Py.sorted_by_confidence_desc dets))]).
Proof.
  intros Hat Hn.
  rewrite (while_true_window Sample.cfg
             (Sample.chunk at_ n (TempWritten name) (BirdnetDetections dets))
             rest opened Hat (silence n) eq_refl)
    with (name := name) (dets := dets); try reflexivity.
  - unfold after, opened. cbn [buffer next_window_bytes fs trace app].
    rewrite len_silence, slice_to_firstn, WINDOW_BYTES_eq by (rewrite ?WINDOW_BYTES_eq; lia).
    rewrite firstn_silence by lia. reflexivity.
  - unfold opened. cbn [buffer next_window_bytes app].
    rewrite len_silence, WINDOW_BYTES_eq by lia. exact Hn.
Qed.

(** The second window, from a message that brings the buffer to [m] bytes. *)
Lemma sample_second_window_fails at_ n m name text tr rest :
  (at_ < 30 # 1)%Q -> 0 <= n -> 0 <= m -> 576000 <= n + m ->
  while_true Sample.cfg
    (Sample.chunk at_ m (TempWritten name) (BirdnetFailed text) :: rest)
    (mkState (silence n) 576000 ∅ tr)
  = (Return_,
     mkState (silence (n + m)) 576000 ∅
       (tr ++ [Launching 576000 (n + m); Sample.analyzing name (silence 576000);
               Sent (ErrorMsg ("BirdNET failed: " ++ text)%string);
               Closed WS_1011_INTERNAL_ERROR])).
Proof.
  intros Hat Hn Hm Hnm. cbn [while_true].
  assert (Htime : Qle_bool (timeout_seconds Sample.cfg)
                    (elapsed (Sample.chunk at_ m (TempWritten name) (BirdnetFailed text)))
                  = false) by now apply in_time_iff.
  rewrite (loop_body_birdnet_failed Sample.cfg
             (Sample.chunk at_ m (TempWritten name) (BirdnetFailed text))
             _ Htime (silence m) eq_refl)
    with (name := name) (text := text); try reflexivity.
  - unfold after. cbn [buffer next_window_bytes fs trace].
    rewrite silence_app, len_silence, slice_to_firstn by lia.
    rewrite firstn_silence by lia.
    rewrite delete_insert_id by apply lookup_empty. reflexivity.
  - cbn [buffer next_window_bytes]. rewrite silence_app, len_silence by lia. exact Hnm.
Qed.

End SampleFacts.

(** * The one-shot endpoints *)

Section PredictClaims.

Lemma response_one_best raw : one_best_per_species raw (Predict.response raw).
Proof.
  unfold one_best_per_species. rewrite response_firsts.
  split; [apply firsts_NoDup|]. split.
  - intros sp. split.
    + intros H. apply in_map_iff in H. destruct H as (e & <- & He).
      apply firsts_In in He. apply in_map, sorted_In. tauto.
    + intros H. apply firsts_covers; [|tauto].
      apply in_map_iff in H. destruct H as (d & <- & Hd).
      apply in_map, sorted_In, Hd.
  - intros e He. split.
    + apply firsts_In in He. apply sorted_In. tauto.
    + intros d Hd Hname.
      apply (firsts_best [] (Py.sorted_by_confidence_desc raw) e d);
        [apply sorted_sorted | exact He | now apply sorted_In | exact Hname].
Qed.

Lemma response_sorted raw : StronglySorted conf_ge (Predict.response raw).
Proof. rewrite response_firsts. apply firsts_sorted, sorted_sorted. Qed.

Lemma Detection_new_Some det d :
  Detection_new det = Some d <-> d = det /\ in_unit_range det.
Proof.
  unfold Detection_new, in_unit_range.
  destruct (Qle_bool 0 (confidence det)) eqn:Hlo;
    destruct (Qle_bool (confidence det) 1) eqn:Hhi; cbn.
  - apply Qle_bool_iff in Hlo, Hhi. split; [intros [= <-]; auto | intros [-> _]; reflexivity].
  - split; [discriminate|]. intros [_ [_ H]]. apply Qle_bool_iff in H. congruence.
  - split; [discriminate|]. intros [_ [H _]]. apply Qle_bool_iff in H. congruence.
  - split; [discriminate|]. intros [_ [H _]]. apply Qle_bool_iff in H. congruence.
Qed.

Lemma Detection_all_Some dets body :
  Detection_all dets = Some body <-> body = dets /\ Forall in_unit_range dets.
Proof.
  revert body. induction dets as [|det rest IH]; intros body; cbn [Detection_all].
  - split; [intros [= <-]; auto | intros [-> _]; reflexivity].
  - destruct (Detection_new det) as [d|] eqn:Hd.
    + apply Detection_new_Some in Hd. destruct Hd as [-> Hrange].
      destruct (Detection_all rest) as [ds|] eqn:Hrest.
      * destruct (proj1 (IH ds) eq_refl) as [-> Hall].
        split; [intros [= <-]; auto | intros [-> _]; reflexivity].
      * split; [discriminate|]. intros [_ Hall]. apply Forall_cons in Hall.
        destruct Hall as [_ Hall].
        assert (H : None = Some rest) by (apply IH; auto). discriminate.
    + split; [discriminate|]. intros [_ Hall]. apply Forall_cons in Hall.
      destruct Hall as [Hrange _].
      assert (H : Detection_new det = Some det) by (apply Detection_new_Some; auto).
      congruence.
Qed.

Lemma response_in_unit_range raw :
  Forall in_unit_range raw -> Forall in_unit_range (Predict.response raw).
Proof.
  intros H. apply List.Forall_forall. intros e He.
  rewrite List.Forall_forall in H. apply H.
  now apply (response_one_best raw).
Qed.

(** Both endpoints, from the raw detections of a saved upload: the
    per-species selection when it passes validation. *)
Lemma predict_validated raw :
  Forall in_unit_range raw ->
  Predict.predict_from_file None (Predict.RawDetections raw)
  = Predict.Responded (Predict.Ok200 (Predict.response raw)) /\
  Predict.predict_from_stream None (Predict.RawDetections raw)
  = Predict.Responded (Predict.Ok200 (Predict.response raw)).
Proof.
  intros H. cbn [Predict.predict_from_file Predict.predict_from_stream].
  assert (Hall : Detection_all (Predict.response raw) = Some (Predict.response raw))
    by (apply Detection_all_Some; split; [reflexivity | now apply response_in_unit_range]).
  rewrite Hall. split; reflexivity.
Qed.

(** A 200 of either endpoint carries the per-species selection. *)
Lemma predict_ok raw body :
  Predict.predict_from_file None (Predict.RawDetections raw)
    = Predict.Responded (Predict.Ok200 body) \/
  Predict.predict_from_stream None (Predict.RawDetections raw)
    = Predict.Responded (Predict.Ok200 body) ->
  body = Predict.response raw /\ Forall in_unit_range body.
Proof.
  cbn [Predict.predict_from_file Predict.predict_from_stream].
  destruct (Detection_all (Predict.response raw)) as [b|] eqn:Hb;
    [|intros [H|H]; discriminate].
  apply Detection_all_Some in Hb. destruct Hb as [-> Hall].
  intros [[= <-]|[= <-]]; auto.
Qed.

(** A confidence above 1 in the selection: the response fails validation
    and the exception leaves the endpoint. *)
Example predict_from_file_confidence_out_of_range :
  Predict.predict_from_file None
    (Predict.RawDetections [mkDetection "A" "bird" "label" (3 # 2) 0 3])
  = Predict.Unhandled "ValidationError".
Proof. reflexivity. Qed.

(** C7: for raw detections with confidences within [0, 1], as the engine
    gives them, both one-shot endpoints answer with status 200 and exactly
    one entry per scientific name that occurs in the raw detections, and
    each entry is a raw detection whose confidence no other raw detection of
    the same species exceeds. *)
Theorem C7_one_entry_per_species_best_confidence (raw : list Detection) :
  Forall in_unit_range raw ->
  (exists body,
     Predict.predict_from_file None (Predict.RawDetections raw)
     = Predict.Responded (Predict.Ok200 body) /\
     one_best_per_species raw body) /\
  (exists body,
     Predict.predict_from_stream None (Predict.RawDetections raw)
     = Predict.Responded (Predict.Ok200 body) /\
     one_best_per_species raw body).
Proof.
  intros Hrange. destruct (predict_validated raw Hrange) as [Hfile Hstream].
  split; exists (Predict.response raw); (split; [assumption | apply response_one_best]).
Qed.

(** The example of the specification: A at 0.9, A at 0.4, B at 0.6. *)
Example predict_from_file_A_A_B :
  let det sp c := mkDetection sp "bird" "label" c 0 3 in
  Predict.predict_from_file None
    (Predict.RawDetections [det "A" (9 # 10); det "A" (4 # 10); det "B" (6 # 10)])
  = Predict.Responded (Predict.Ok200 [det "A" (9 # 10); det "B" (6 # 10)]).
Proof. reflexivity. Qed.

(** C10: for raw detections with confidences within [0, 1], the list both
    one-shot endpoints return holds the best detection of every species of
    the raw detections, in order of non-increasing confidence. *)
Theorem C10_response_sorted_by_confidence (raw : list Detection) :
  Forall in_unit_range raw ->
  (exists body,
     Predict.predict_from_file None (Predict.RawDetections raw)
     = Predict.Responded (Predict.Ok200 body) /\
     StronglySorted conf_ge body /\
     one_best_per_species raw body) /\
  (exists body,
     Predict.predict_from_stream None (Predict.RawDetections raw)
     = Predict.Responded (Predict.Ok200 body) /\
     StronglySorted conf_ge body /\
     one_best_per_species raw body).
Proof.
  intros Hrange. destruct (predict_validated raw Hrange) as [Hfile Hstream].
  split; exists (Predict.response raw);
    (split; [assumption | split; [apply response_sorted | apply response_one_best]]).
Qed.

End PredictClaims.

(** * The realtime session *)

Section StreamingClaims.
Import Streaming.

Lemma thresholds_increasing a k : StronglySorted Z.lt (map threshold (seq a k)).
Proof.
  revert a. induction k as [|k IH]; intros a; cbn [seq map]; constructor; [apply IH|].
  apply List.Forall_forall. intros x Hx.
  apply in_map_iff in Hx. destruct Hx as (i & <- & Hi). apply in_seq in Hi.
  unfold threshold. rewrite WINDOW_BYTES_eq. lia.
Qed.

Lemma increasing_NoDup l : StronglySorted Z.lt l -> NoDup l.
Proof.
  induction 1 as [|x l _ IH Hall]; constructor; [|exact IH].
  intros Hin. rewrite Forall_forall in Hall. specialize (Hall x Hin). lia.
Qed.

(** C9: in every session the thresholds at which window analyses start are
    288000, 576000, 864000, ... in this order, so strictly increasing and
    without repetition, and an analysis at a threshold starts only with at
    least that many bytes in the buffer. *)
Theorem C9_thresholds_increase_by_one_window (deps : Deps) (c : connection) :
  let started := launches (trace (snd (session deps c))) in
  map fst started = map (fun i => Z.of_nat i * 288000) (seq 1 (length started)) /\
  StronglySorted Z.lt (map fst started) /\
  NoDup (map fst started) /\
  Forall (fun lb => fst lb <= snd lb) started.
Proof.
  cbn zeta. destruct (session_settled deps c) as (k & n & _ & Hth & _ & Hle & _).
  assert (Hlen : length (launches (trace (snd (session deps c)))) = k).
  { rewrite <- (length_map fst), Hth, length_map. apply length_seq. }
  rewrite Hlen, Hth. split; [|split; [|split]].
  - apply map_ext. intros i. unfold threshold. now rewrite WINDOW_BYTES_eq.
  - apply thresholds_increasing.
  - apply increasing_NoDup, thresholds_increasing.
  - exact Hle.
Qed.

(** C2: the audio of the analysis invocation number [i + 1] of a session is
    the first [(i + 1) * 288000] bytes of the session buffer, all of them. *)
Theorem C2_window_is_cumulative_prefix (deps : Deps) (c : connection)
    (i : nat) (audio : option wav_file) :
  nth_error (analyses (trace (snd (session deps c)))) i = Some audio ->
  exists w,
    audio = Some w /\
    frames w = firstn (Z.to_nat (Z.of_nat (S i) * 288000)) (buffer (snd (session deps c))) /\
    len (frames w) = Z.of_nat (S i) * 288000.
Proof.
  destruct (session_settled deps c) as (k & n & Hnk & _ & Han & _ & Hbuf).
  rewrite Han, nth_error_map, nth_error_seq.
  destruct (Nat.ltb_spec i n) as [Hi|Hi]; [|discriminate].
  cbn [option_map]. intros [= <-].
  exists (window (buffer (snd (session deps c))) (S i)).
  split; [reflexivity|]. rewrite <- WINDOW_BYTES_eq. split; [reflexivity|].
  apply window_length. etransitivity; [apply (threshold_mono (S i) k); lia | exact Hbuf].
Qed.

(** C4: when the write of the window file or the engine fails in a pass of
    a streaming session, the session ends in that pass: one error message is
    sent after the detections messages of the earlier windows, the connection
    is closed once with code 1011, and the failed window is the last one
    that was started, whatever the client sends afterwards. *)
Theorem C4_analysis_failure_ends_session (deps : Deps) (c : connection)
    (cfg : settings) (pre post : list tick) (t : tick) (s : state)
    (msg : list Byte.byte) :
  streams deps c cfg ->
  ticks c = pre ++ t :: post ->
  while_true cfg pre opened = (Normal tt, s) ->
  (elapsed t < timeout_seconds cfg)%Q ->
  inbound t = Received msg ->
  next_window_bytes s <= len (buffer s ++ msg) ->
  analysis_fails t = true ->
  exists s' text,
    session deps c = (Return_, s') /\
    sent (trace s') = sent (trace s) ++ [ErrorMsg text] /\
    Forall (fun m => is_detections m = true) (sent (trace s)) /\
    closes (trace s') = [WS_1011_INTERNAL_ERROR] /\
    launches (trace s')
    = launches (trace s) ++ [(next_window_bytes s, len (buffer s ++ msg))].
Proof.
  intros Hs Hticks Hpre Htime Hin Hcross Hfail.
  pose proof (while_true_running cfg pre 0 opened running_opened) as Hrun.
  rewrite Hpre in Hrun. destruct Hrun as (k & _ & _ & _ & _ & _ & Hcl & Hdet & _).
  destruct (while_true_analysis_fails cfg t post s Htime msg Hin Hcross Hfail)
    as (f & audio & text & Hrun & Hl & Hsent & Hc).
  exists (after s (buffer s ++ msg) (next_window_bytes s) f
            (Launching (next_window_bytes s) (len (buffer s ++ msg))
             :: audio ++ [Sent (ErrorMsg text); Closed WS_1011_INTERNAL_ERROR])), text.
  split.
  - rewrite (session_streams deps c cfg Hs), Hticks, while_true_app, Hpre, Hrun.
    reflexivity.
  - unfold after; cbn [trace].
    change (Launching (next_window_bytes s) (len (buffer s ++ msg))
            :: audio ++ [Sent (ErrorMsg text); Closed WS_1011_INTERNAL_ERROR])
      with ([Launching (next_window_bytes s) (len (buffer s ++ msg))]
            ++ audio ++ [Sent (ErrorMsg text); Closed WS_1011_INTERNAL_ERROR]).
    rewrite !sent_app, !closes_app, !launches_app, Hsent, Hc, Hl, Hcl.
    repeat split; auto.
Qed.

(** C5: a disconnect signalled while the handler waits ends the session at
    once and no message is sent after it.  At the wait for the init payload
    the handler closes with code 1008 and returns; at a wait for an inbound
    chunk it returns in the state it was in, nothing sent and nothing closed. *)
Theorem C5_disconnect_ends_session_without_message (deps : Deps) (c : connection) :
  (String.eqb (token c) (EXPECTED_TOKEN deps) = true ->
   init c = InitDisconnected ->
   exists s',
     session deps c = (Return_, s') /\
     trace s' = [Accepted; Closed WS_1008_POLICY_VIOLATION] /\
     sent (trace s') = []) /\
  (forall cfg pre t post s,
     streams deps c cfg ->
     ticks c = pre ++ t :: post ->
     while_true cfg pre opened = (Normal tt, s) ->
     (elapsed t < timeout_seconds cfg)%Q ->
     inbound t = Disconnected ->
     session deps c = (Return_, s)).
Proof.
  split.
  - intros Htok Hinit. rewrite (session_init_disconnected deps c Htok Hinit).
    eexists. repeat split.
  - intros cfg pre t post s Hs Hticks Hpre Htime Hin.
    rewrite (session_streams deps c cfg Hs), Hticks, while_true_app, Hpre.
    now rewrite (while_true_disconnected cfg t post s Htime Hin).
Qed.

(** C6: a session that completed init and received no audio byte up to the
    pass in which the elapsed time reaches the timeout sends exactly one
    message, the timeout notice, closes with code 1000 and returns; no window
    is analysed and no detections message is sent. *)
Theorem C6_timeout_without_audio (deps : Deps) (c : connection)
    (cfg : settings) (pre post : list tick) (t : tick) :
  streams deps c cfg ->
  ticks c = pre ++ t :: post ->
  Forall (silent_pass cfg) pre ->
  (timeout_seconds cfg <= elapsed t)%Q ->
  exists s',
    session deps c = (Return_, s') /\
    trace s' = [Accepted; Sent TimeoutMsg; Closed WS_1000_NORMAL_CLOSURE] /\
    sent (trace s') = [TimeoutMsg] /\
    closes (trace s') = [WS_1000_NORMAL_CLOSURE] /\
    analyses (trace s') = [].
Proof.
  intros Hs Hticks Hpre Htime.
  rewrite (session_streams deps c cfg Hs), Hticks, while_true_app.
  rewrite (while_true_silent cfg pre Hpre), (while_true_timeout cfg t post opened Htime).
  eexists. repeat split.
Qed.

(** A first message that is decoded and that the validation rejects: the
    handler sends the error message "Invalid init payload", closes with code
    1008 and returns; the buffer stays empty and no window is started or
    analysed, whatever the client sends afterwards. *)
Lemma invalid_init_payload_rejected (deps : Deps) (c : connection) (payload : json) :
  String.eqb (token c) (EXPECTED_TOKEN deps) = true ->
  init c = InitReceived payload ->
  RealtimeInit_new deps payload = None ->
  exists s',
    session deps c = (Return_, s') /\
    trace s' = [Accepted; Sent (ErrorMsg "Invalid init payload");
                Closed WS_1008_POLICY_VIOLATION] /\
    buffer s' = [] /\
    launches (trace s') = [] /\
    analyses (trace s') = [].
Proof.
  intros Htok Hinit Hinvalid.
  rewrite (session_init_invalid deps c Htok payload Hinit Hinvalid).
  eexists. repeat split.
Qed.

(** Payloads the validation rejects, whatever pydantic converts: no mapping,
    no [lon], a latitude out of range. *)
Lemma init_not_a_mapping deps payload :
  (forall members, payload <> JObject members) -> RealtimeInit_new deps payload = None.
Proof. intros H. destruct payload; try reflexivity. now destruct (H members). Qed.

Lemma init_without_lon deps members :
  member "lon" members = None -> RealtimeInit_new deps (JObject members) = None.
Proof.
  intros H. cbn [RealtimeInit_new]. unfold float_field at 2. rewrite H.
  now destruct (float_field deps members "lat" _ _ _).
Qed.

Lemma init_lat_out_of_range deps members v x :
  member "lat" members = Some v -> float_validator deps v = Some x ->
  (90 # 1 < x)%Q -> RealtimeInit_new deps (JObject members) = None.
Proof.
  intros Hm Hv Hx. cbn [RealtimeInit_new]. unfold float_field at 1.
  rewrite Hm, Hv.
  assert (E : Qle_bool x (90 # 1) = false).
  { destruct (Qle_bool x (90 # 1)) eqn:E; [|reflexivity].
    apply Qle_bool_iff in E. now apply Qlt_not_le in Hx. }
  rewrite E, andb_false_r. reflexivity.
Qed.

(** C8, at a first frame that is not JSON: [receive_json] raises while
    decoding it, no [except] clause of line 138 matches, and the exception
    leaves the handler.  No error message is sent and the handler does not
    close with code 1008; no audio is read. *)
Theorem C8_undecodable_first_message_not_reported :
  let garbled := InitReceiveFailed "Expecting value: line 1 column 1 (char 0)" in
  exists s',
    session Sample.deps (Sample.connect garbled [Sample.first_window])
    = (Raise (Error "Expecting value: line 1 column 1 (char 0)"), s') /\
    trace s' = [Accepted] /\
    sent (trace s') = [] /\
    closes (trace s') = [] /\
    buffer s' = [].
Proof.
  cbn zeta. eexists. split.
  - apply session_init_receive_failed; reflexivity.
  - repeat split.
Qed.

(** C1, at one message of 600000 bytes from a fresh session: the pass
    analyses the window of 288000 bytes only and goes back to reading with
    the threshold 576000 already reached; the passes that follow bring no
    message, and the session times out after one analysis, where
    600000 / 288000 = 2. *)
Theorem C1_one_analysis_per_inbound_message :
  600000 / WINDOW_BYTES = 2 /\
  (let big := Sample.chunk 0 600000 (TempWritten "w1.wav") (BirdnetDetections []) in
   let served := [Accepted; Launching 288000 600000;
                  Sample.analyzing "w1.wav" (silence 288000);
                  Sent (DetectionsMsg [])] in
   session Sample.deps (Sample.connect (InitReceived Sample.payload) [big])
   = (Normal tt, mkState (silence 600000) 576000 ∅ served) /\
   session Sample.deps
     (Sample.connect (InitReceived Sample.payload)
        [big; Sample.idle 1; Sample.idle (30 # 1)])
   = (Return_, mkState (silence 600000) 576000 ∅
                 (served ++ [Sent TimeoutMsg; Closed WS_1000_NORMAL_CLOSURE])) /\
   length (analyses served) = 1%nat /\
   launches served = [(288000, 600000)]).
Proof.
  split; [reflexivity|]. cbn zeta. split; [|split; [|split; reflexivity]].
  - rewrite (session_streams _ _ Sample.cfg (sample_streams _ _ eq_refl)).
    cbn [ticks Sample.connect].
    rewrite sample_first_window by (reflexivity || lia). reflexivity.
  - rewrite (session_streams _ _ Sample.cfg (sample_streams _ _ eq_refl)).
    cbn [ticks Sample.connect].
    rewrite sample_first_window by (reflexivity || lia).
    rewrite while_true_poll_expired by reflexivity.
    rewrite while_true_timeout by (cbn; apply Qle_refl). reflexivity.
Qed.

(** C3, at a first window whose file is created and whose write then fails:
    the handler reports the I/O error, closes with code 1011 and returns,
    and the file is still on disk. *)
Theorem C3_failed_write_leaves_temp_file :
  let failing := Sample.chunk 0 288000
                   (TempWriteFailed "w1.wav" "No space left on device")
                   (BirdnetDetections []) in
  exists s',
    session Sample.deps (Sample.connect (InitReceived Sample.payload) [failing])
    = (Return_, s') /\
    fs s' !! "w1.wav" = Some (mkWav CHANNELS SAMPLE_WIDTH SAMPLE_RATE []) /\
    sent (trace s') = [ErrorMsg "I/O error: No space left on device"] /\
    closes (trace s') = [WS_1011_INTERNAL_ERROR].
Proof.
  cbn zeta.
  rewrite (session_streams _ _ Sample.cfg (sample_streams _ _ eq_refl)).
  cbn [ticks Sample.connect while_true].
  rewrite (loop_body_temp_write_failed Sample.cfg
             (Sample.chunk 0 288000 (TempWriteFailed "w1.wav" "No space left on device")
                (BirdnetDetections []))
             opened eq_refl (silence 288000) eq_refl)
    with (name := "w1.wav") (text := "No space left on device").
  - eexists. split; [reflexivity|]. unfold after; cbn [fs trace].
    split; [apply lookup_insert_eq|]. split; reflexivity.
  - unfold opened. cbn [buffer next_window_bytes app].
    rewrite len_silence, WINDOW_BYTES_eq by lia. lia.
  - reflexivity.
Qed.

End StreamingClaims.

(** * The theorems at the sample connections *)

Section Witnesses.
Import Streaming.

Lemma sample_after_first_window :
  while_true Sample.cfg [Sample.first_window] opened
  = (Normal tt, Sample.after_first_window).
Proof.
  unfold Sample.first_window.
  rewrite sample_first_window by (reflexivity || lia). reflexivity.
Qed.

(** One window of 288000 bytes: the engine is given those 288000 bytes. *)
Lemma C2_witness :
  exists w,
    Some (mkWav CHANNELS SAMPLE_WIDTH SAMPLE_RATE (silence 288000)) = Some w /\
    frames w
    = firstn (Z.to_nat (Z.of_nat 1 * 288000))
        (buffer (snd (session Sample.deps
                        (Sample.connect (InitReceived Sample.payload)
                           [Sample.first_window])))) /\
    len (frames w) = Z.of_nat 1 * 288000.
Proof.
  apply (C2_window_is_cumulative_prefix Sample.deps
           (Sample.connect (InitReceived Sample.payload) [Sample.first_window]) 0).
  rewrite (session_streams Sample.deps
             (Sample.connect (InitReceived Sample.payload) [Sample.first_window])
             Sample.cfg (sample_streams _ _ eq_refl)).
  cbn [ticks Sample.connect]. rewrite sample_after_first_window. reflexivity.
Defined.

(** The engine raises on the second window only: one detections message,
    one error message, one close, and the third message is never read. *)
Lemma C4_witness :
  exists s' text,
    session Sample.deps
      (Sample.connect (InitReceived Sample.payload)
         [Sample.first_window; Sample.second_window_fails; Sample.third_window])
    = (Return_, s') /\
    sent (trace s') = sent (trace Sample.after_first_window) ++ [ErrorMsg text] /\
    Forall (fun m => is_detections m = true) (sent (trace Sample.after_first_window)) /\
    closes (trace s') = [WS_1011_INTERNAL_ERROR] /\
    launches (trace s')
    = launches (trace Sample.after_first_window)
      ++ [(next_window_bytes Sample.after_first_window,
           len (buffer Sample.after_first_window ++ silence 288000))].
Proof.
  apply (C4_analysis_failure_ends_session Sample.deps
           (Sample.connect (InitReceived Sample.payload)
              [Sample.first_window; Sample.second_window_fails; Sample.third_window])
           Sample.cfg [Sample.first_window] [Sample.third_window]
           Sample.second_window_fails Sample.after_first_window (silence 288000)).
  - apply sample_streams. reflexivity.
  - reflexivity.
  - apply sample_after_first_window.
  - reflexivity.
  - reflexivity.
  - unfold Sample.after_first_window. cbn [buffer next_window_bytes].
    rewrite silence_app, len_silence by lia. lia.
  - reflexivity.
Defined.

(** A client that hangs up instead of sending init, and one that hangs up
    at the second wait for a chunk. *)
Lemma C5_witness :
  (exists s',
     session Sample.deps (Sample.connect InitDisconnected []) = (Return_, s') /\
     trace s' = [Accepted; Closed WS_1008_POLICY_VIOLATION] /\
     sent (trace s') = []) /\
  session Sample.deps
    (Sample.connect (InitReceived Sample.payload)
       [Sample.idle 1; Sample.hangup 2; Sample.first_window])
  = (Return_, opened).
Proof.
  split.
  - apply (proj1 (C5_disconnect_ends_session_without_message Sample.deps
                    (Sample.connect InitDisconnected []))); reflexivity.
  - apply (proj2 (C5_disconnect_ends_session_without_message Sample.deps
                    (Sample.connect (InitReceived Sample.payload)
                       [Sample.idle 1; Sample.hangup 2; Sample.first_window]))
             Sample.cfg [Sample.idle 1] (Sample.hangup 2) [Sample.first_window] opened).
    + apply sample_streams. reflexivity.
    + reflexivity.
    + apply while_true_silent. repeat constructor.
    + reflexivity.
    + reflexivity.
Defined.

(** Two polls without a message, an empty message, and the budget of 30
    seconds used up. *)
Lemma C6_witness :
  exists s',
    session Sample.deps
      (Sample.connect (InitReceived Sample.payload)
         [Sample.idle 1; Sample.idle 2;
          Sample.chunk 3 0 (TempWritten "w1.wav") (BirdnetDetections []);
          Sample.idle (30 # 1); Sample.first_window])
    = (Return_, s') /\
    trace s' = [Accepted; Sent TimeoutMsg; Closed WS_1000_NORMAL_CLOSURE] /\
    sent (trace s') = [TimeoutMsg] /\
    closes (trace s') = [WS_1000_NORMAL_CLOSURE] /\
    analyses (trace s') = [].
Proof.
  apply (C6_timeout_without_audio Sample.deps
           (Sample.connect (InitReceived Sample.payload)
              [Sample.idle 1; Sample.idle 2;
               Sample.chunk 3 0 (TempWritten "w1.wav") (BirdnetDetections []);
               Sample.idle (30 # 1); Sample.first_window])
           Sample.cfg
           [Sample.idle 1; Sample.idle 2;
            Sample.chunk 3 0 (TempWritten "w1.wav") (BirdnetDetections [])]
           [Sample.first_window] (Sample.idle (30 # 1))).
  - apply sample_streams. reflexivity.
  - reflexivity.
  - repeat (apply Forall_cons; split;
            [split; [reflexivity | first [left; reflexivity | right; reflexivity]]|]).
    constructor.
  - cbn. apply Qle_refl.
Defined.

(** An init payload without [lon], followed by audio that is never read. *)
Example invalid_init_payload_without_lon :
  exists s',
    session Sample.deps
      (Sample.connect (InitReceived Sample.payload_without_lon) [Sample.first_window])
    = (Return_, s') /\
    trace s' = [Accepted; Sent (ErrorMsg "Invalid init payload");
                Closed WS_1008_POLICY_VIOLATION] /\
    buffer s' = [] /\
    launches (trace s') = [] /\
    analyses (trace s') = [].
Proof.
  apply (invalid_init_payload_rejected Sample.deps
           (Sample.connect (InitReceived Sample.payload_without_lon) [Sample.first_window])
           Sample.payload_without_lon); reflexivity.
Qed.

End Witnesses.

Section PredictWitnesses.

(** The example of the specification: A at 0.9, A at 0.4, B at 0.6. *)
Lemma C7_witness :
  let det sp c := mkDetection sp "bird" "label" c 0 3 in
  let raw := [det "A" (9 # 10); det "A" (4 # 10); det "B" (6 # 10)] in
  (exists body,
     Predict.predict_from_file None (Predict.RawDetections raw)
     = Predict.Responded (Predict.Ok200 body) /\
     one_best_per_species raw body) /\
  (exists body,
     Predict.predict_from_stream None (Predict.RawDetections raw)
     = Predict.Responded (Predict.Ok200 body) /\
     one_best_per_species raw body).
Proof.
  cbn zeta.
  apply (C7_one_entry_per_species_best_confidence
           [mkDetection "A" "bird" "label" (9 # 10) 0 3;
            mkDetection "A" "bird" "label" (4 # 10) 0 3;
            mkDetection "B" "bird" "label" (6 # 10) 0 3]).
  repeat (apply Forall_cons; split); try apply Forall_nil_2;
    unfold in_unit_range; cbn; split; discriminate.
Defined.

(** Raw detections that come by increasing confidence. *)
Lemma C10_witness :
  let det sp c := mkDetection sp "bird" "label" c 0 3 in
  let raw := [det "A" (4 # 10); det "B" (6 # 10); det "A" (9 # 10)] in
  (exists body,
     Predict.predict_from_file None (Predict.RawDetections raw)
     = Predict.Responded (Predict.Ok200 body) /\
     StronglySorted conf_ge body /\
     one_best_per_species raw body) /\
  (exists body,
     Predict.predict_from_stream None (Predict.RawDetections raw)
     = Predict.Responded (Predict.Ok200 body) /\
     StronglySorted conf_ge body /\
     one_best_per_species raw body).
Proof.
  cbn zeta.
  apply (C10_response_sorted_by_confidence
           [mkDetection "A" "bird" "label" (4 # 10) 0 3;
            mkDetection "B" "bird" "label" (6 # 10) 0 3;
            mkDetection "A" "bird" "label" (9 # 10) 0 3]).
  repeat (apply Forall_cons; split); try apply Forall_nil_2;
    unfold in_unit_range; cbn; split; discriminate.
Defined.

End PredictWitnesses.

(** * More about the realtime session *)

Section MoreSessionFacts.
Import Streaming.

Lemma messages_app a b : messages (a ++ b) = messages a ++ messages b.
Proof. unfold messages. now rewrite map_app, concat_app. Qed.

Lemma firstn_snoc {A} (l : list A) (x : A) (rest : list A) :
  firstn (S (length l)) (l ++ x :: rest) = l ++ [x].
Proof.
  induction l as [|a l IH]; cbn; [reflexivity|]. f_equal. exact IH.
Qed.

Lemma messages_one t :
  messages [t] = match inbound t with Received msg => msg | _ => [] end.
Proof. unfold messages. cbn. apply app_nil_r. Qed.

(** What one pass does to the buffer, and what it sends or closes. *)
Lemma loop_body_effect cfg t k s :
  running k s ->
  match loop_body cfg t s with
  | (Normal _, s') | (Continue_, s') =>
      (exists k', running k' s') /\ buffer s' = buffer s ++ messages [t]
  | (Return_, s') =>
      (buffer s' = buffer s \/ buffer s' = buffer s ++ messages [t]) /\
      exists quiet tail,
        trace s' = trace s ++ quiet ++ tail /\
        Forall silent_event quiet /\
        (tail = [] \/
         tail = [Sent TimeoutMsg; Closed WS_1000_NORMAL_CLOSURE] \/
         exists text, tail = [Sent (ErrorMsg text); Closed WS_1011_INTERNAL_ERROR])
  | (Raise e, s') => s' = s /\ exists text, e = Error text
  end.
Proof.
  intros Hrun. pose proof (loop_body_running cfg t k s Hrun) as Hstep. revert Hstep.
  rewrite messages_one.
  loop_body_cases cfg t s; unfold after; cbn [buffer trace]; intros Hstep.
  - split; [now left|]. exists [], [Sent TimeoutMsg; Closed WS_1000_NORMAL_CLOSURE].
    split; [reflexivity|]. split; [constructor|]. auto.
  - split; [destruct Hstep; eauto | reflexivity].
  - split; [now right|].
    exists [Launching (next_window_bytes s) (len (buffer s ++ msg))],
      [Sent (ErrorMsg ("I/O error: " ++ text)%string); Closed WS_1011_INTERNAL_ERROR].
    split; [reflexivity|]. split; [repeat constructor|]. eauto.
  - split; [now right|].
    exists [Launching (next_window_bytes s) (len (buffer s ++ msg))],
      [Sent (ErrorMsg ("I/O error: " ++ text)%string); Closed WS_1011_INTERNAL_ERROR].
    split; [reflexivity|]. split; [repeat constructor|]. eauto.
  - split; [now right|].
    eexists [Launching (next_window_bytes s) (len (buffer s ++ msg)); _],
      [Sent (ErrorMsg ("BirdNET failed: " ++ text)%string); Closed WS_1011_INTERNAL_ERROR].
    split; [reflexivity|]. split; [repeat constructor|]. eauto.
  - split; [destruct Hstep; eauto | reflexivity].
  - split; [destruct Hstep; eauto | now rewrite app_nil_r].
  - split; [now left|]. exists [], []. rewrite !app_nil_r.
    split; [reflexivity|]. split; [constructor|]. auto.
  - eauto.
Qed.

(** The same for a run of passes: [n] of them were gone through. *)
Lemma while_true_effect cfg passes k s :
  running k s ->
  exists n,
    (n <= length passes)%nat /\
    buffer (snd (while_true cfg passes s)) = buffer s ++ messages (firstn n passes) /\
    match while_true cfg passes s with
    | (Normal _, s') => n = length passes /\ exists k', running k' s'
    | (Return_, s') =>
        exists k' s1 quiet tail,
          running k' s1 /\
          trace s' = trace s1 ++ quiet ++ tail /\
          Forall silent_event quiet /\
          (tail = [] \/
           tail = [Sent TimeoutMsg; Closed WS_1000_NORMAL_CLOSURE] \/
           exists text, tail = [Sent (ErrorMsg text); Closed WS_1011_INTERNAL_ERROR])
    | (Raise e, s') => (exists k', running k' s') /\ exists text, e = Error text
    | (Continue_, _) => False
    end.
Proof.
  revert k s. induction passes as [|t rest IH]; intros k s Hrun.
  - exists 0%nat. cbn. rewrite app_nil_r. eauto.
  - cbn [while_true]. pose proof (loop_body_effect cfg t k s Hrun) as Hstep.
    destruct (loop_body cfg t s) as [[[]|e| |] s1].
    + destruct Hstep as [[k1 Hrun1] Hbuf].
      destruct (IH k1 s1 Hrun1) as (n & Hn & Hb & Hrest).
      exists (S n). split; [cbn; lia|]. split.
      * rewrite Hb, Hbuf. cbn [firstn].
        change (t :: firstn n rest) with ([t] ++ firstn n rest).
        now rewrite messages_app, app_assoc.
      * destruct (while_true cfg rest s1) as [[[]|e| |] s2]; auto.
        destruct Hrest as [-> Hk]. split; [reflexivity | exact Hk].
    + destruct Hstep as [-> Htext]. exists 0%nat. cbn [snd firstn length].
      split; [lia|]. split; [cbn; now rewrite app_nil_r|]. eauto.
    + destruct Hstep as [Hbuf (quiet & tail & Htr & Hq & Htail)].
      destruct Hbuf as [Hbuf|Hbuf].
      * exists 0%nat. cbn [snd firstn length]. split; [lia|].
        split; [rewrite Hbuf; cbn; now rewrite app_nil_r|]. eauto 10.
      * exists 1%nat. cbn [snd firstn length]. split; [lia|].
        split; [exact Hbuf|]. eauto 10.
    + destruct Hstep as [[k1 Hrun1] Hbuf].
      destruct (IH k1 s1 Hrun1) as (n & Hn & Hb & Hrest).
      exists (S n). split; [cbn; lia|]. split.
      * rewrite Hb, Hbuf. cbn [firstn].
        change (t :: firstn n rest) with ([t] ++ firstn n rest).
        now rewrite messages_app, app_assoc.
      * destruct (while_true cfg rest s1) as [[[]|e| |] s2]; auto.
        destruct Hrest as [-> Hk]. split; [reflexivity | exact Hk].
Qed.

Lemma silent_events_quiet quiet :
  Forall silent_event quiet -> sent quiet = [] /\ closes quiet = [].
Proof.
  induction 1 as [|e quiet He _ [IHs IHc]]; [split; reflexivity|].
  destruct e; cbn in He; try contradiction; cbn; auto.
Qed.

(** How the trace of any session is made up. *)
Lemma session_shape deps c :
  exists base tail,
    trace (snd (session deps c)) = base ++ tail /\
    closes base = [] /\
    Forall (fun m => is_detections m = true) (sent base) /\
    ending tail.
Proof.
  unfold ending.
  destruct (String.eqb (token c) (EXPECTED_TOKEN deps)) eqn:Htok.
  - destruct (init c) as [payload| | |text] eqn:Hinit.
    + destruct (RealtimeInit_new deps payload) as [i|] eqn:Hvalid.
      * assert (Hs : streams deps c (settings_of i (today c)))
          by (unfold streams; eauto 10).
        rewrite (session_streams deps c _ Hs).
        destruct (while_true_effect (settings_of i (today c)) (ticks c) 0 opened
                    running_opened) as (n & _ & _ & Hend).
        destruct (while_true _ (ticks c) opened) as [[[]|e| |] s']; cbn [outer snd].
        -- destruct Hend as [_ [k Hrun]]. exists (trace s'), [].
           rewrite app_nil_r. split; [reflexivity|]. split; [apply Hrun|].
           split; [apply Hrun | auto].
        -- destruct Hend as [[k Hrun] [text ->]]. cbn [snd after trace str].
           eexists (trace s'), _. split; [reflexivity|]. split; [apply Hrun|].
           split; [apply Hrun | eauto 10].
        -- destruct Hend as (k & s1 & quiet & tail & Hrun & Htr & Hq & Htail).
           destruct (silent_events_quiet quiet Hq) as [Hqs Hqc].
           exists (trace s1 ++ quiet), tail. rewrite Htr, app_assoc.
           split; [reflexivity|]. rewrite closes_app, sent_app, Hqs, Hqc, !app_nil_r.
           split; [apply Hrun|]. split; [apply Hrun|].
           destruct Htail as [->|[->|[text ->]]]; eauto 10.
        -- contradiction.
      * rewrite (session_init_invalid deps c Htok payload Hinit Hvalid).
        exists [Accepted], [Sent (ErrorMsg "Invalid init payload");
                           Closed WS_1008_POLICY_VIOLATION].
        cbn. split; [reflexivity|]. split; [reflexivity|]. split; [constructor | auto].
    + rewrite (session_init_timed_out deps c Htok Hinit).
      exists [Accepted], [Closed WS_1008_POLICY_VIOLATION].
      cbn. split; [reflexivity|]. split; [reflexivity|]. split; [constructor | auto].
    + rewrite (session_init_disconnected deps c Htok Hinit).
      exists [Accepted], [Closed WS_1008_POLICY_VIOLATION].
      cbn. split; [reflexivity|]. split; [reflexivity|]. split; [constructor | auto].
    + rewrite (session_init_receive_failed deps c Htok text Hinit).
      exists [Accepted], []. cbn. split; [reflexivity|]. split; [reflexivity|].
      split; [constructor | auto].
  - rewrite (session_bad_token deps c Htok).
    exists [Accepted], [Closed WS_1008_POLICY_VIOLATION].
    cbn. split; [reflexivity|]. split; [reflexivity|]. split; [constructor | auto].
Qed.

(** Only a session that streams can still be in its loop. *)
Lemma session_in_loop deps c s' :
  session deps c = (Normal tt, s') ->
  exists cfg, streams deps c cfg /\ while_true cfg (ticks c) opened = (Normal tt, s').
Proof.
  intros Hend.
  destruct (String.eqb (token c) (EXPECTED_TOKEN deps)) eqn:Htok.
  - destruct (init c) as [payload| | |text] eqn:Hinit.
    + destruct (RealtimeInit_new deps payload) as [i|] eqn:Hvalid.
      * assert (Hs : streams deps c (settings_of i (today c)))
          by (unfold streams; eauto 10).
        exists (settings_of i (today c)). split; [exact Hs|].
        rewrite (session_streams deps c _ Hs) in Hend.
        destruct (while_true _ (ticks c) opened) as [[[]|e| |] s1];
          cbn [outer] in Hend; try discriminate; [exact Hend|].
        destruct e; discriminate.
      * rewrite (session_init_invalid deps c Htok payload Hinit Hvalid) in Hend.
        discriminate.
    + rewrite (session_init_timed_out deps c Htok Hinit) in Hend. discriminate.
    + rewrite (session_init_disconnected deps c Htok Hinit) in Hend. discriminate.
    + rewrite (session_init_receive_failed deps c Htok text Hinit) in Hend. discriminate.
  - rewrite (session_bad_token deps c Htok) in Hend. discriminate.
Qed.

(** A pass starts an analysis only when it read a message. *)
Lemma loop_body_launch_count cfg t s :
  (length (launches (trace (snd (loop_body cfg t s))))
   <= length (launches (trace s)) + received_count [t])%nat.
Proof.
  unfold received_count. cbn [List.filter].
  loop_body_cases cfg t s; unfold after; cbn [snd trace];
    rewrite ?launches_app, ?length_app; cbn; lia.
Qed.

Lemma received_count_cons t rest :
  received_count (t :: rest) = (received_count [t] + received_count rest)%nat.
Proof.
  unfold received_count. cbn [List.filter].
  destruct (inbound t); cbn; reflexivity.
Qed.

Lemma while_true_launch_count cfg passes s :
  (length (launches (trace (snd (while_true cfg passes s))))
   <= length (launches (trace s)) + received_count passes)%nat.
Proof.
  revert s. induction passes as [|t rest IH]; intros s; [cbn; lia|].
  cbn [while_true]. rewrite received_count_cons.
  pose proof (loop_body_launch_count cfg t s) as Hstep.
  destruct (loop_body cfg t s) as [[[]|e| |] s1]; cbn [snd] in *;
    try (specialize (IH s1)); lia.
Qed.

(** Every call of the engine in a pass is made with the settings. *)
Lemma loop_body_analysed_with cfg t s :
  Forall (analysed_with cfg) (trace s) ->
  Forall (analysed_with cfg) (trace (snd (loop_body cfg t s))).
Proof.
  intros H.
  loop_body_cases cfg t s; unfold after; cbn [snd trace]; auto;
    apply Forall_app; (split; [exact H|]); repeat constructor; eauto 10.
Qed.

Lemma while_true_analysed_with cfg passes s :
  Forall (analysed_with cfg) (trace s) ->
  Forall (analysed_with cfg) (trace (snd (while_true cfg passes s))).
Proof.
  revert s. induction passes as [|t rest IH]; intros s H; [exact H|].
  cbn [while_true]. pose proof (loop_body_analysed_with cfg t s H) as Hstep.
  destruct (loop_body cfg t s) as [[[]|e| |] s1]; cbn [snd] in *; auto.
Qed.

(** Every detections message of a pass is sorted. *)
Lemma loop_body_well_sorted cfg t s :
  Forall well_sorted (sent (trace s)) ->
  Forall well_sorted (sent (trace (snd (loop_body cfg t s)))).
Proof.
  intros H.
  loop_body_cases cfg t s; unfold after; cbn [snd trace]; auto;
    rewrite sent_app; apply Forall_app; (split; [exact H|]); cbn;
    repeat constructor. apply sorted_sorted.
Qed.

Lemma while_true_well_sorted cfg passes s :
  Forall well_sorted (sent (trace s)) ->
  Forall well_sorted (sent (trace (snd (while_true cfg passes s)))).
Proof.
  revert s. induction passes as [|t rest IH]; intros s H; [exact H|].
  cbn [while_true]. pose proof (loop_body_well_sorted cfg t s H) as Hstep.
  destruct (loop_body cfg t s) as [[[]|e| |] s1]; cbn [snd] in *; auto.
Qed.

(** The only file a pass can leave is one whose write failed half-way. *)
Lemma loop_body_leftover cfg t s :
  fs s = ∅ ->
  fs (snd (loop_body cfg t s)) = ∅ \/
  exists name text,
    temp t = TempWriteFailed name text /\
    fst (loop_body cfg t s) = Return_ /\
    fs (snd (loop_body cfg t s))
    = {[ name := mkWav CHANNELS SAMPLE_WIDTH SAMPLE_RATE [] ]}.
Proof.
  intros Hfs.
  loop_body_cases cfg t s; unfold after; cbn [fst snd fs]; auto.
  - right. exists name, text. rewrite Hfs. auto.
  - left. rewrite Hfs. apply delete_insert_id, lookup_empty.
  - left. rewrite Hfs. apply delete_insert_id, lookup_empty.
Qed.

Lemma while_true_leftover cfg passes s :
  fs s = ∅ ->
  fs (snd (while_true cfg passes s)) = ∅ \/
  exists t name text,
    In t passes /\ temp t = TempWriteFailed name text /\
    fs (snd (while_true cfg passes s))
    = {[ name := mkWav CHANNELS SAMPLE_WIDTH SAMPLE_RATE [] ]}.
Proof.
  revert s. induction passes as [|t rest IH]; intros s Hfs; [now left|].
  cbn [while_true]. pose proof (loop_body_leftover cfg t s Hfs) as Hstep.
  destruct (loop_body cfg t s) as [[[]|e| |] s1]; cbn [fst snd] in *.
  - destruct Hstep as [H|(? & ? & _ & H & _)]; [|discriminate].
    destruct (IH s1 H) as [?|(t' & name & text & Hin & ? & ?)]; [now left|].
    right. exists t', name, text. cbn. auto.
  - destruct Hstep as [H|(? & ? & _ & H & _)]; [now left | discriminate].
  - destruct Hstep as [H|(name & text & Ht & _ & H)]; [now left|].
    right. exists t, name, text. cbn. auto.
  - destruct Hstep as [H|(? & ? & _ & H & _)]; [|discriminate].
    destruct (IH s1 H) as [?|(t' & name & text & Hin & ? & ?)]; [now left|].
    right. exists t', name, text. cbn. auto.
Qed.

End MoreSessionFacts.

Section MoreSessionTheorems.
Import Streaming.

(** X1: a connection whose token differs from the expected one is accepted
    and closed at once with code 1008; nothing is sent, and neither the init
    message nor any audio is read, whatever the client goes on to do. *)
Theorem X1_bad_token_closes_without_reading (deps : Deps) (c : connection) :
  token c <> EXPECTED_TOKEN deps ->
  exists s',
    session deps c = (Return_, s') /\
    trace s' = [Accepted; Closed WS_1008_POLICY_VIOLATION] /\
    buffer s' = [].
Proof.
  intros H. apply String.eqb_neq in H. rewrite (session_bad_token deps c H).
  eexists. repeat split.
Qed.

(** X2: when no init message arrives within the wait of 10 seconds, the
    handler closes with code 1008 and sends no message. *)
Theorem X2_init_wait_expires (deps : Deps) (c : connection) :
  token c = EXPECTED_TOKEN deps ->
  init c = InitTimedOut ->
  exists s',
    session deps c = (Return_, s') /\
    trace s' = [Accepted; Closed WS_1008_POLICY_VIOLATION].
Proof.
  intros H Hinit. apply String.eqb_eq in H.
  rewrite (session_init_timed_out deps c H Hinit). eexists. repeat split.
Qed.

(** X3: an exception of [receive_bytes] other than the poll timeout and the
    disconnect is caught by the handler of lines 219-222: the session sends
    one message "Server error: ...", closes with code 1011 and returns, the
    buffer as it was. *)
Theorem X3_unexpected_receive_error_is_reported (deps : Deps) (c : connection)
    (cfg : settings) (pre post : list tick) (t : tick) (s : state) (text : string) :
  streams deps c cfg ->
  ticks c = pre ++ t :: post ->
  while_true cfg pre opened = (Normal tt, s) ->
  (elapsed t < timeout_seconds cfg)%Q ->
  inbound t = ReceiveFailed text ->
  exists s',
    session deps c = (Return_, s') /\
    trace s' = trace s ++ [Sent (ErrorMsg ("Server error: " ++ text)%string);
                           Closed WS_1011_INTERNAL_ERROR] /\
    buffer s' = buffer s.
Proof.
  intros Hs Hticks Hpre Htime Hin. apply in_time_iff in Htime.
  rewrite (session_streams deps c cfg Hs), Hticks, while_true_app, Hpre.
  cbn [while_true]. rewrite (loop_body_receive_failed cfg t s Htime text Hin).
  eexists. repeat split.
Qed.

(** X4: while a session is in its loop its buffer is exactly the binary
    messages read so far, concatenated in order; however the session goes
    on, its final buffer extends this by a prefix of the messages that
    follow: no byte is dropped, repeated or moved. *)
Theorem X4_buffer_is_messages_in_order (deps : Deps) (c : connection) (cfg : settings)
    (pre post : list tick) (s : state) :
  streams deps c cfg ->
  ticks c = pre ++ post ->
  while_true cfg pre opened = (Normal tt, s) ->
  buffer s = messages pre /\
  exists more,
    buffer (snd (session deps c)) = messages pre ++ more /\
    more `prefix_of` messages post.
Proof.
  intros Hs Hticks Hpre.
  destruct (while_true_effect cfg pre 0 opened running_opened) as (n & _ & Hb & Hn).
  rewrite Hpre in Hb, Hn. cbn [snd] in Hb. destruct Hn as [-> [k Hrun]].
  rewrite firstn_all in Hb. unfold opened in Hb. cbn [buffer app] in Hb.
  split; [exact Hb|].
  rewrite (session_streams deps c cfg Hs), Hticks, while_true_app, Hpre.
  destruct (while_true_effect cfg post k s Hrun) as (m & _ & Hb' & _).
  exists (messages (firstn m post)). split.
  - rewrite <- Hb, <- Hb'.
    destruct (while_true cfg post s) as [[[]|e| |] s']; try reflexivity.
    destruct e; reflexivity.
  - exists (messages (skipn m post)).
    now rewrite <- messages_app, firstn_skipn.
Qed.

(** X5: every detections message a session sends lists its detections by
    non-increasing confidence. *)
Theorem X5_detections_messages_are_sorted (deps : Deps) (c : connection) :
  Forall well_sorted (sent (trace (snd (session deps c)))).
Proof.
  destruct (String.eqb (token c) (EXPECTED_TOKEN deps)) eqn:Htok.
  - destruct (init c) as [payload| | |text] eqn:Hinit.
    + destruct (RealtimeInit_new deps payload) as [i|] eqn:Hvalid.
      * assert (Hs : streams deps c (settings_of i (today c)))
           by (unfold streams; eauto 10).
         rewrite (session_streams deps c _ Hs).
         pose proof (while_true_well_sorted (settings_of i (today c)) (ticks c) opened) as H.
         specialize (H ltac:(constructor)).
         destruct (while_true _ (ticks c) opened) as [[[]|e| |] s']; cbn [outer snd] in *; auto.
         destruct e; cbn [snd]; auto; unfold after; cbn [trace];
           rewrite sent_app; apply Forall_app; (split; [exact H|]); repeat constructor.
      * rewrite (session_init_invalid deps c Htok payload Hinit Hvalid).
         repeat constructor.
    + rewrite (session_init_timed_out deps c Htok Hinit). constructor.
    + rewrite (session_init_disconnected deps c Htok Hinit). constructor.
    + rewrite (session_init_receive_failed deps c Htok text Hinit). constructor.
  - rewrite (session_bad_token deps c Htok). constructor.
Qed.

(** X6: while a session is in its loop the connection was never closed,
    every message sent is a detections message, one per analysis and per
    window started, the next threshold is one window beyond the windows
    analysed, no temporary file is on disk, and the buffer holds every
    message read. *)
Theorem X6_bookkeeping_in_the_loop (deps : Deps) (c : connection) (s' : state) :
  session deps c = (Normal tt, s') ->
  closes (trace s') = [] /\
  Forall (fun m => is_detections m = true) (sent (trace s')) /\
  length (sent (trace s')) = length (analyses (trace s')) /\
  length (launches (trace s')) = length (analyses (trace s')) /\
  next_window_bytes s' = (Z.of_nat (length (analyses (trace s'))) + 1) * 288000 /\
  fs s' = ∅ /\
  buffer s' = messages (ticks c).
Proof.
  intros Hend. destruct (session_in_loop deps c s' Hend) as (cfg & _ & Hrun).
  destruct (while_true_effect cfg (ticks c) 0 opened running_opened)
    as (n & _ & Hbuf & Hshape).
  rewrite Hrun in Hbuf, Hshape. cbn [snd] in Hbuf.
  destruct Hshape as [-> (k & Hth & Han & _ & _ & Hnext & Hcl & Hdet & Hcount & Hfs)].
  assert (Hk : length (analyses (trace s')) = k)
    by (rewrite Han, length_map; apply length_seq).
  assert (Hl : length (launches (trace s')) = k)
    by (rewrite <- (length_map fst), Hth, length_map; apply length_seq).
  rewrite Hk, Hl, Hcount, Hnext, firstn_all in *.
  repeat split; auto.
  unfold threshold. rewrite WINDOW_BYTES_eq. lia.
Qed.

(** X7: a session closes the connection at most once, with code 1000, 1008
    or 1011, and the close is the last thing it does: nothing is sent,
    started or analysed after it. *)
Theorem X7_close_is_last_and_unique (deps : Deps) (c : connection) :
  let tr := trace (snd (session deps c)) in
  closes tr = [] \/
  exists before code,
    tr = before ++ [Closed code] /\
    closes before = [] /\
    (code = WS_1000_NORMAL_CLOSURE \/ code = WS_1008_POLICY_VIOLATION \/
     code = WS_1011_INTERNAL_ERROR).
Proof.
  cbn zeta. destruct (session_shape deps c) as (base & tail & -> & Hcl & _ & Hend).
  destruct Hend as [->|[->|[->|[->|[text ->]]]]].
  - left. now rewrite app_nil_r.
  - right. exists base, WS_1008_POLICY_VIOLATION. auto.
  - right. exists (base ++ [Sent (ErrorMsg "Invalid init payload")]), WS_1008_POLICY_VIOLATION.
    rewrite <- app_assoc, closes_app, Hcl. auto.
  - right. exists (base ++ [Sent TimeoutMsg]), WS_1000_NORMAL_CLOSURE.
    rewrite <- app_assoc, closes_app, Hcl. auto.
  - right. exists (base ++ [Sent (ErrorMsg text)]), WS_1011_INTERNAL_ERROR.
    rewrite <- app_assoc, closes_app, Hcl. auto.
Qed.

(** X8: the messages of a session are detections messages followed by at
    most one final message; a timeout notice goes with close code 1000, an
    error message with close code 1008 or 1011. *)
Theorem X8_one_final_message_at_most (deps : Deps) (c : connection) :
  let tr := trace (snd (session deps c)) in
  exists found final,
    sent tr = found ++ final /\
    Forall (fun m => is_detections m = true) found /\
    (final = [] \/
     (final = [TimeoutMsg] /\ closes tr = [WS_1000_NORMAL_CLOSURE]) \/
     exists text,
       final = [ErrorMsg text] /\
       (closes tr = [WS_1008_POLICY_VIOLATION] \/ closes tr = [WS_1011_INTERNAL_ERROR])).
Proof.
  cbn zeta. destruct (session_shape deps c) as (base & tail & -> & Hcl & Hdet & Hend).
  exists (sent base), (sent tail). rewrite sent_app, closes_app, Hcl.
  split; [reflexivity|]. split; [exact Hdet|].
  destruct Hend as [->|[->|[->|[->|[text ->]]]]]; cbn; eauto 10.
Qed.

(** X9: after a session, however it ended, the only temporary file that can
    be left on disk is one that [write_temp_wav] created and failed to
    write; there is at most one. *)
Theorem X9_only_a_failed_write_leaves_a_file (deps : Deps) (c : connection) :
  fs (snd (session deps c)) = ∅ \/
  exists t name text,
    In t (ticks c) /\
    temp t = TempWriteFailed name text /\
    fs (snd (session deps c)) = {[ name := mkWav CHANNELS SAMPLE_WIDTH SAMPLE_RATE [] ]}.
Proof.
  destruct (session_cases deps c) as [[cfg Hs]|(_ & _ & _ & H)]; [|now left].
  rewrite (session_streams deps c cfg Hs).
  pose proof (while_true_leftover cfg (ticks c) opened eq_refl) as H.
  destruct (while_true cfg (ticks c) opened) as [[[]|e| |] s']; cbn [snd outer] in *; auto.
  destruct e; exact H.
Qed.

(** X10: when no message is longer than one window, a session that is in
    its loop has run exactly one analysis per 288000 bytes of the binary
    messages it received. *)
Theorem X10_small_messages_keep_up (deps : Deps) (c : connection) (s' : state) :
  Forall small_chunk (ticks c) ->
  session deps c = (Normal tt, s') ->
  Z.of_nat (length (analyses (trace s'))) = len (messages (ticks c)) / 288000.
Proof.
  intros Hsmall Hend. destruct (session_in_loop deps c s' Hend) as (cfg & _ & Hrun).
  destruct (while_true_effect cfg (ticks c) 0 opened running_opened) as (n & _ & Hb & Hn).
  rewrite Hrun in Hb, Hn. cbn [snd] in Hb. destruct Hn as [-> _].
  rewrite firstn_all in Hb. unfold opened in Hb. cbn [buffer app] in Hb.
  rewrite <- Hb, <- WINDOW_BYTES_eq.
  now apply (small_chunks_one_analysis_per_window cfg (ticks c)).
Qed.

(** X11: a session never starts more window analyses than it read binary
    messages, and never calls the engine more often than it started
    analyses. *)
Theorem X11_at_most_one_analysis_per_message (deps : Deps) (c : connection) :
  let tr := trace (snd (session deps c)) in
  (length (launches tr) <= received_count (ticks c))%nat /\
  (length (analyses tr) <= length (launches tr))%nat.
Proof.
  cbn zeta. split.
  - destruct (session_cases deps c) as [[cfg Hs]|(H & _)]; [|rewrite H; cbn; lia].
    rewrite (session_streams deps c cfg Hs).
    pose proof (while_true_launch_count cfg (ticks c) opened) as H.
    destruct (while_true cfg (ticks c) opened) as [[[]|e| |] s']; cbn [snd outer] in *; auto.
    destruct e; cbn [snd]; auto; unfold after; cbn [trace];
      rewrite launches_app; cbn; rewrite app_nil_r; exact H.
  - destruct (session_settled deps c) as (k & n & Hnk & Hth & Han & _).
    rewrite Han, <- (length_map fst (launches _)), Hth, !length_map, !length_seq.
    exact Hnk.
Qed.

Lemma float_field_within deps members name default ge le x :
  float_field deps members name default ge le = Some x ->
  (forall d, default = Some d ->
     match ge with Some lo => (lo <= d)%Q | None => True end /\
     match le with Some hi => (d <= hi)%Q | None => True end) ->
  match ge with Some lo => (lo <= x)%Q | None => True end /\
  match le with Some hi => (x <= hi)%Q | None => True end.
Proof.
  unfold float_field. intros H Hdefault.
  destruct (member name members) as [v|]; [|now apply Hdefault].
  destruct (float_validator deps v) as [y|]; [|discriminate].
  destruct (match ge with Some lo => Qle_bool lo y | None => true end) eqn:Hge;
    destruct (match le with Some hi => Qle_bool y hi | None => true end) eqn:Hle;
    cbn in H; try discriminate.
  injection H as <-. split.
  - destruct ge; [now apply Qle_bool_iff | exact I].
  - destruct le; [now apply Qle_bool_iff | exact I].
Qed.

Lemma RealtimeInit_new_fields deps payload i :
  RealtimeInit_new deps payload = Some i ->
  exists members,
    payload = JObject members /\
    float_field deps members "lat" None (Some (-90 # 1)) (Some (90 # 1)) = Some (init_lat i) /\
    float_field deps members "lon" None (Some (-180 # 1)) (Some (180 # 1)) = Some (init_lon i) /\
    date_field deps members = Some (init_date i) /\
    float_field deps members "min_conf" (Some (25 # 100)) (Some 0%Q) (Some 1%Q)
    = Some (init_min_conf i) /\
    float_field deps members "timeout" (Some (30 # 1)) (Some 1%Q) None
    = Some (init_timeout i).
Proof.
  destruct payload as [| | | | |members]; try discriminate.
  cbn [RealtimeInit_new]. intros H. exists members.
  destruct (float_field deps members "lat" _ _ _); [|discriminate].
  destruct (float_field deps members "lon" _ _ _); [|discriminate].
  destruct (date_field deps members); [|discriminate].
  destruct (float_field deps members "min_conf" _ _ _); [|discriminate].
  destruct (float_field deps members "timeout" _ _ _); [|discriminate].
  injection H as <-. cbn. auto 10.
Qed.

(** X12: a session only streams with settings inside the declared ranges:
    latitude in [-90, 90], longitude in [-180, 180], confidence floor in
    [0, 1] and a timeout of at least one second. *)
Theorem X12_settings_within_declared_ranges (deps : Deps) (c : connection)
    (cfg : settings) :
  streams deps c cfg ->
  (-90 # 1 <= lat cfg <= 90 # 1)%Q /\
  (-180 # 1 <= lon cfg <= 180 # 1)%Q /\
  (0 <= min_conf cfg <= 1)%Q /\
  (1 <= timeout_seconds cfg)%Q.
Proof.
  intros (_ & payload & i & _ & Hvalid & ->).
  destruct (RealtimeInit_new_fields deps payload i Hvalid)
    as (members & _ & Hlat & Hlon & _ & Hconf & Htime).
  unfold settings_of; cbn [lat lon min_conf timeout_seconds].
  apply float_field_within in Hlat, Hlon, Hconf, Htime; try discriminate.
  - tauto.
  - intros d [= <-]. split; [|exact I]. discriminate.
  - intros d [= <-]. split; discriminate.
Qed.

(** X13: what an init payload leaves out takes its default: a confidence
    floor of 0.25, a timeout of 30 seconds, and today's date as the
    recording date. *)
Theorem X13_init_defaults (deps : Deps) (c : connection) (cfg : settings)
    (members : list (string * json)) :
  streams deps c cfg ->
  init c = InitReceived (JObject members) ->
  (member "min_conf" members = None -> min_conf cfg = 25 # 100) /\
  (member "timeout" members = None -> timeout_seconds cfg = 30 # 1) /\
  (member "date" members = None -> recording_date cfg = today c).
Proof.
  intros (_ & payload & i & Hinit & Hvalid & ->) Hinit'.
  rewrite Hinit in Hinit'. injection Hinit' as ->.
  destruct (RealtimeInit_new_fields deps _ i Hvalid)
    as (members' & [= <-] & _ & _ & Hdate & Hconf & Htime).
  unfold settings_of; cbn [min_conf timeout_seconds recording_date].
  unfold float_field in Hconf, Htime. unfold date_field in Hdate.
  repeat split; intros Hnone; rewrite Hnone in *.
  - now injection Hconf.
  - now injection Htime.
  - injection Hdate as <-. reflexivity.
Qed.

(** X15: the timeout is checked before the read: in the first pass in which
    the elapsed time has reached the timeout the session sends the timeout
    notice after what it sent before, closes with code 1000 and returns,
    and a message that waits to be read is neither buffered nor analysed. *)
Theorem X15_timeout_wins_over_waiting_audio (deps : Deps) (c : connection)
    (cfg : settings) (pre post : list tick) (t : tick) (s : state) :
  streams deps c cfg ->
  ticks c = pre ++ t :: post ->
  while_true cfg pre opened = (Normal tt, s) ->
  (timeout_seconds cfg <= elapsed t)%Q ->
  exists s',
    session deps c = (Return_, s') /\
    trace s' = trace s ++ [Sent TimeoutMsg; Closed WS_1000_NORMAL_CLOSURE] /\
    buffer s' = buffer s /\
    next_window_bytes s' = next_window_bytes s.
Proof.
  intros Hs Hticks Hpre Htime.
  rewrite (session_streams deps c cfg Hs), Hticks, while_true_app, Hpre.
  rewrite (while_true_timeout cfg t post s Htime). eexists. repeat split.
Qed.

(** X16: every call of the engine in a session is made with the latitude,
    longitude, recording date and confidence floor of the session, on a
    temporary file that is mono, 16-bit, 48 kHz. *)
Theorem X16_engine_called_with_session_settings (deps : Deps) (c : connection)
    (cfg : settings) :
  streams deps c cfg ->
  Forall (analysed_with cfg) (trace (snd (session deps c))).
Proof.
  intros Hs. rewrite (session_streams deps c cfg Hs).
  pose proof (while_true_analysed_with cfg (ticks c) opened) as H.
  specialize (H ltac:(repeat constructor)).
  destruct (while_true cfg (ticks c) opened) as [[[]|e| |] s']; cbn [snd outer] in *; auto.
  destruct e; cbn [snd]; auto; unfold after; cbn [trace];
    apply Forall_app; (split; [exact H|]); repeat constructor.
Qed.

(** X14: a pass that reads a message, reaches the next threshold, writes the
    window file and gets detections from the engine sends exactly one
    message, which holds every detection the engine returned (none dropped,
    none merged by species) by non-increasing confidence; the session stays
    in its loop with the threshold one window further and the window file
    removed. *)
Theorem X14_window_reports_all_detections (cfg : settings) (pre : list tick)
    (t : tick) (s : state) (msg : list Byte.byte) (name : string)
    (dets : list Detection) :
  while_true cfg pre opened = (Normal tt, s) ->
  (elapsed t < timeout_seconds cfg)%Q ->
  inbound t = Received msg ->
  next_window_bytes s <= len (buffer s ++ msg) ->
  temp t = TempWritten name ->
  birdnet t = BirdnetDetections dets ->
  exists s1 reported,
    while_true cfg (pre ++ [t]) opened = (Normal tt, s1) /\
    sent (trace s1) = sent (trace s) ++ [DetectionsMsg reported] /\
    Permutation dets reported /\
    StronglySorted conf_ge reported /\
    buffer s1 = buffer s ++ msg /\
    next_window_bytes s1 = next_window_bytes s + 288000 /\
    fs s1 = ∅.
Proof.
  intros Hpre Htime Hin Hcross Htemp Hbird.
  pose proof (while_true_running cfg pre 0 opened running_opened) as Hrun.
  rewrite Hpre in Hrun. destruct Hrun as (k & _ & _ & _ & _ & _ & _ & _ & _ & Hfs).
  eexists _, (Py.sorted_by_confidence_desc dets). split.
  - rewrite while_true_app, Hpre.
    rewrite (while_true_window cfg t [] s Htime msg Hin Hcross name dets Htemp Hbird)
      by (rewrite Hfs; apply lookup_empty).
    reflexivity.
  - unfold after; cbn [trace buffer next_window_bytes fs].
    rewrite sent_app, WINDOW_BYTES_eq. cbn [sent omap].
    split; [reflexivity|]. split; [apply sorted_perm|]. split; [apply sorted_sorted|].
    auto.
Qed.

End MoreSessionTheorems.

Section MoreSessionWitnesses.
Import Streaming.

Lemma sample_session_first_window :
  session Sample.deps (Sample.connect (InitReceived Sample.payload) [Sample.first_window])
  = (Normal tt, Sample.after_first_window).
Proof.
  rewrite (session_streams Sample.deps
             (Sample.connect (InitReceived Sample.payload) [Sample.first_window])
             Sample.cfg (sample_streams _ _ eq_refl)).
  cbn [ticks Sample.connect]. rewrite sample_after_first_window. reflexivity.
Qed.

Lemma sample_first_window_small : Forall small_chunk [Sample.first_window].
Proof.
  constructor; [|constructor].
  unfold small_chunk, Sample.first_window, Sample.chunk. cbn [inbound].
  rewrite len_silence, WINDOW_BYTES_eq by lia. lia.
Qed.

Lemma X1_witness :
  exists s',
    session Sample.deps
      (mkConnection "guess" (InitReceived Sample.payload) "2025-06-01" [Sample.first_window])
    = (Return_, s') /\
    trace s' = [Accepted; Closed WS_1008_POLICY_VIOLATION] /\
    buffer s' = [].
Proof.
  apply (X1_bad_token_closes_without_reading Sample.deps
           (mkConnection "guess" (InitReceived Sample.payload) "2025-06-01"
              [Sample.first_window])).
  discriminate.
Defined.

Lemma X2_witness :
  exists s',
    session Sample.deps (Sample.connect InitTimedOut [Sample.first_window]) = (Return_, s') /\
    trace s' = [Accepted; Closed WS_1008_POLICY_VIOLATION].
Proof.
  apply (X2_init_wait_expires Sample.deps
           (Sample.connect InitTimedOut [Sample.first_window])); reflexivity.
Defined.

Lemma X3_witness :
  let broken := mkTick 2 (ReceiveFailed "KeyError") (TempNotCreated "unused")
                  (BirdnetFailed "unused") in
  exists s',
    session Sample.deps
      (Sample.connect (InitReceived Sample.payload)
         [Sample.idle 1; broken; Sample.first_window])
    = (Return_, s') /\
    trace s' = trace opened ++ [Sent (ErrorMsg ("Server error: " ++ "KeyError")%string);
                                Closed WS_1011_INTERNAL_ERROR] /\
    buffer s' = buffer opened.
Proof.
  cbn zeta.
  apply (X3_unexpected_receive_error_is_reported Sample.deps
           (Sample.connect (InitReceived Sample.payload)
              [Sample.idle 1;
               mkTick 2 (ReceiveFailed "KeyError") (TempNotCreated "unused")
                 (BirdnetFailed "unused");
               Sample.first_window])
           Sample.cfg [Sample.idle 1] [Sample.first_window]
           (mkTick 2 (ReceiveFailed "KeyError") (TempNotCreated "unused")
              (BirdnetFailed "unused"))
           opened "KeyError").
  - apply sample_streams. reflexivity.
  - reflexivity.
  - apply while_true_silent. repeat constructor.
  - reflexivity.
  - reflexivity.
Defined.

Lemma X4_witness :
  buffer Sample.after_first_window = messages [Sample.first_window] /\
  exists more,
    buffer (snd (session Sample.deps
                   (Sample.connect (InitReceived Sample.payload)
                      [Sample.first_window; Sample.hangup 1])))
    = messages [Sample.first_window] ++ more /\
    more `prefix_of` messages [Sample.hangup 1].
Proof.
  apply (X4_buffer_is_messages_in_order Sample.deps
           (Sample.connect (InitReceived Sample.payload)
              [Sample.first_window; Sample.hangup 1])
           Sample.cfg [Sample.first_window] [Sample.hangup 1] Sample.after_first_window).
  - apply (sample_streams (InitReceived Sample.payload)
             [Sample.first_window; Sample.hangup 1]). reflexivity.
  - reflexivity.
  - apply sample_after_first_window.
Defined.

Lemma X6_witness :
  closes (trace Sample.after_first_window) = [] /\
  Forall (fun m => is_detections m = true) (sent (trace Sample.after_first_window)) /\
  length (sent (trace Sample.after_first_window))
  = length (analyses (trace Sample.after_first_window)) /\
  length (launches (trace Sample.after_first_window))
  = length (analyses (trace Sample.after_first_window)) /\
  next_window_bytes Sample.after_first_window
  = (Z.of_nat (length (analyses (trace Sample.after_first_window))) + 1) * 288000 /\
  fs Sample.after_first_window = ∅ /\
  buffer Sample.after_first_window
  = messages (ticks (Sample.connect (InitReceived Sample.payload) [Sample.first_window])).
Proof.
  apply (X6_bookkeeping_in_the_loop Sample.deps
           (Sample.connect (InitReceived Sample.payload) [Sample.first_window])
           Sample.after_first_window).
  apply sample_session_first_window.
Defined.

Lemma X10_witness :
  Z.of_nat (length (analyses (trace Sample.after_first_window)))
  = len (messages (ticks (Sample.connect (InitReceived Sample.payload)
                            [Sample.first_window]))) / 288000.
Proof.
  apply (X10_small_messages_keep_up Sample.deps
           (Sample.connect (InitReceived Sample.payload) [Sample.first_window])
           Sample.after_first_window).
  - apply sample_first_window_small.
  - apply sample_session_first_window.
Defined.

Lemma X12_witness :
  (-90 # 1 <= lat Sample.cfg <= 90 # 1)%Q /\
  (-180 # 1 <= lon Sample.cfg <= 180 # 1)%Q /\
  (0 <= min_conf Sample.cfg <= 1)%Q /\
  (1 <= timeout_seconds Sample.cfg)%Q.
Proof.
  apply (X12_settings_within_declared_ranges Sample.deps
           (Sample.connect (InitReceived Sample.payload) []) Sample.cfg).
  apply sample_streams. reflexivity.
Defined.

Lemma X13_witness :
  min_conf Sample.cfg = 25 # 100 /\
  timeout_seconds Sample.cfg = 30 # 1 /\
  recording_date Sample.cfg = today (Sample.connect (InitReceived Sample.payload) []).
Proof.
  destruct (X13_init_defaults Sample.deps
              (Sample.connect (InitReceived Sample.payload) []) Sample.cfg
              [("lat", JNumber (6044 # 100)); ("lon", JNumber (2226 # 100))]
              (sample_streams _ _ eq_refl) eq_refl) as (Hconf & Htime & Hdate).
  split; [apply Hconf; reflexivity|]. split; [apply Htime | apply Hdate]; reflexivity.
Defined.

Lemma X14_witness :
  let robin := mkDetection "Erithacus rubecula" "European Robin" "robin" (6 # 10) 0 3 in
  let wren := mkDetection "Troglodytes troglodytes" "Eurasian Wren" "wren" (9 # 10) 0 3 in
  let second_robin := mkDetection "Erithacus rubecula" "European Robin" "robin" (4 # 10) 3 6 in
  let heard := Sample.chunk 0 288000 (TempWritten "w1.wav")
                 (BirdnetDetections [robin; wren; second_robin]) in
  exists s1 reported,
    while_true Sample.cfg ([] ++ [heard]) opened = (Normal tt, s1) /\
    sent (trace s1) = sent (trace opened) ++ [DetectionsMsg reported] /\
    Permutation [robin; wren; second_robin] reported /\
    StronglySorted conf_ge reported /\
    buffer s1 = buffer opened ++ silence 288000 /\
    next_window_bytes s1 = next_window_bytes opened + 288000 /\
    fs s1 = ∅.
Proof.
  cbn zeta.
  apply (X14_window_reports_all_detections Sample.cfg []
           (Sample.chunk 0 288000 (TempWritten "w1.wav")
              (BirdnetDetections
                 [mkDetection "Erithacus rubecula" "European Robin" "robin" (6 # 10) 0 3;
                  mkDetection "Troglodytes troglodytes" "Eurasian Wren" "wren" (9 # 10) 0 3;
                  mkDetection "Erithacus rubecula" "European Robin" "robin" (4 # 10) 3 6]))
           opened (silence 288000) "w1.wav").
  - reflexivity.
  - reflexivity.
  - reflexivity.
  - unfold opened. cbn [buffer next_window_bytes app].
    rewrite len_silence, WINDOW_BYTES_eq by lia. lia.
  - reflexivity.
  - reflexivity.
Defined.

Lemma X15_witness :
  let late := Sample.chunk (30 # 1) 288000 (TempWritten "w2.wav") (BirdnetDetections []) in
  exists s',
    session Sample.deps
      (Sample.connect (InitReceived Sample.payload) [Sample.first_window; late])
    = (Return_, s') /\
    trace s' = trace Sample.after_first_window
               ++ [Sent TimeoutMsg; Closed WS_1000_NORMAL_CLOSURE] /\
    buffer s' = buffer Sample.after_first_window /\
    next_window_bytes s' = next_window_bytes Sample.after_first_window.
Proof.
  cbn zeta.
  apply (X15_timeout_wins_over_waiting_audio Sample.deps
           (Sample.connect (InitReceived Sample.payload)
              [Sample.first_window;
               Sample.chunk (30 # 1) 288000 (TempWritten "w2.wav") (BirdnetDetections [])])
           Sample.cfg [Sample.first_window] []
           (Sample.chunk (30 # 1) 288000 (TempWritten "w2.wav") (BirdnetDetections []))
           Sample.after_first_window).
  - apply sample_streams. reflexivity.
  - reflexivity.
  - apply sample_after_first_window.
  - cbn. apply Qle_refl.
Defined.

Lemma X16_witness :
  Forall (analysed_with Sample.cfg)
    (trace (snd (session Sample.deps
                   (Sample.connect (InitReceived Sample.payload) [Sample.first_window])))).
Proof.
  apply (X16_engine_called_with_session_settings Sample.deps
           (Sample.connect (InitReceived Sample.payload) [Sample.first_window]) Sample.cfg).
  apply sample_streams. reflexivity.
Defined.

End MoreSessionWitnesses.

(** * More about the one-shot endpoints *)

Section MoreResponseFacts.

Lemma filter_both {A} (f g : A -> bool) (l : list A) :
  List.filter (fun x => f x && g x) l = List.filter f (List.filter g l).
Proof.
  induction l as [|x l IH]; [reflexivity|]. cbn [List.filter].
  destruct (g x); cbn [List.filter]; rewrite ?andb_true_r, ?andb_false_r;
    [destruct (f x)|]; now rewrite IH.
Qed.

Lemma rivals_stable e raw :
  List.filter (rivals e) (Py.sorted_by_confidence_desc raw) = List.filter (rivals e) raw.
Proof.
  unfold rivals.
  rewrite !(filter_both (fun d => String.eqb (scientific_name d) (scientific_name e))
              (has_confidence (confidence e))).
  now rewrite sorted_stable.
Qed.

(** A detection that is kept is the first of its species in the list. *)
Lemma firsts_split seen l e :
  In e (firsts seen l) ->
  exists l1 l2,
    l = l1 ++ e :: l2 /\
    forall d, In d l1 -> scientific_name d <> scientific_name e.
Proof.
  revert seen. induction l as [|x rest IH]; intros seen; cbn [firsts]; [intros []|].
  destruct (in_dec string_dec (scientific_name x) seen) as [Hseen|Hnew].
  - intros He. pose proof (firsts_In _ _ _ He) as [_ Hnot].
    destruct (IH seen He) as (l1 & l2 & -> & Hl1).
    exists (x :: l1), l2. split; [reflexivity|].
    intros d [<-|Hd]; [congruence | now apply Hl1].
  - intros [->|He].
    + exists [], rest. split; [reflexivity | intros d []].
    + pose proof (firsts_In _ _ _ He) as [_ Hnot].
      destruct (IH _ He) as (l1 & l2 & -> & Hl1).
      exists (x :: l1), l2. split; [reflexivity|].
      intros d [<-|Hd]; [|now apply Hl1].
      intros E. apply Hnot. apply in_or_app. right. rewrite E. now left.
Qed.

Lemma response_ties raw e :
  In e (Predict.response raw) -> exists rest, List.filter (rivals e) raw = e :: rest.
Proof.
  rewrite response_firsts. intros He.
  destruct (firsts_split [] _ e He) as (l1 & l2 & Hsplit & Hl1).
  rewrite <- rivals_stable, Hsplit, List.filter_app. cbn [List.filter].
  assert (Hself : rivals e e = true).
  { unfold rivals. rewrite String.eqb_refl. apply Qeq_bool_iff, Qeq_refl. }
  rewrite Hself.
  assert (Hnone : List.filter (rivals e) l1 = []).
  { clear Hsplit. induction l1 as [|d l1 IH]; [reflexivity|]. cbn [List.filter].
    assert (Hd : rivals e d = false).
    { unfold rivals. destruct (String.eqb_spec (scientific_name d) (scientific_name e)) as [E|_];
        [|reflexivity]. exfalso. apply (Hl1 d); [now left | exact E]. }
    rewrite Hd. apply IH. intros d' Hd'. apply Hl1. now right. }
  rewrite Hnone. eauto.
Qed.

(** Sorting a sorted list and selecting among distinct species change
    nothing. *)
Lemma sorted_fixed l :
  StronglySorted conf_ge l -> Py.sorted_by_confidence_desc l = l.
Proof.
  induction 1 as [|d rest Hs IH Hall]; [reflexivity|].
  cbn [Py.sorted_by_confidence_desc]. rewrite IH.
  destruct Hall as [|x rest' Hx _]; [reflexivity|]. cbn [Py.insert_desc].
  apply Qle_bool_iff in Hx. now rewrite Hx.
Qed.

Lemma firsts_fixed seen l :
  NoDup (map scientific_name l) ->
  (forall d, In d l -> ~ In (scientific_name d) seen) ->
  firsts seen l = l.
Proof.
  revert seen. induction l as [|d rest IH]; intros seen Hnd Hseen; [reflexivity|].
  cbn [firsts]. cbn [map] in Hnd. apply NoDup_cons in Hnd. destruct Hnd as [Hd Hnd].
  destruct (in_dec string_dec (scientific_name d) seen) as [Hin|_].
  - exfalso. apply (Hseen d); [now left | exact Hin].
  - f_equal. apply IH; [exact Hnd|].
    intros d' Hd' Hin. apply in_app_or in Hin. destruct Hin as [Hin|[E|[]]].
    + apply (Hseen d'); [now right | exact Hin].
    + apply Hd. apply list_elem_of_In. rewrite E. now apply in_map.
Qed.

Lemma response_fixed raw :
  StronglySorted conf_ge raw -> NoDup (map scientific_name raw) ->
  Predict.response raw = raw.
Proof.
  intros Hs Hnd. rewrite response_firsts, (sorted_fixed raw Hs).
  apply firsts_fixed; [exact Hnd | intros d _ []].
Qed.

End MoreResponseFacts.

Section MoreResponseTheorems.

(** X19: of the raw detections that share the species and the confidence of
    a returned entry, the returned entry is the first in the order of the
    engine: ties go to the earliest detection. *)
Theorem X19_ties_go_to_the_earliest (raw body : list Detection) (e : Detection) :
  Predict.predict_from_file None (Predict.RawDetections raw)
    = Predict.Responded (Predict.Ok200 body) \/
  Predict.predict_from_stream None (Predict.RawDetections raw)
    = Predict.Responded (Predict.Ok200 body) ->
  In e body ->
  exists rest, List.filter (rivals e) raw = e :: rest.
Proof.
  intros H. destruct (predict_ok raw body H) as [-> _]. apply response_ties.
Qed.

(** X20: raw detections with confidences within [0, 1] that come by
    non-increasing confidence and with pairwise distinct species are
    returned as they are, in the same order, by both endpoints. *)
Theorem X20_sorted_distinct_species_unchanged (raw : list Detection) :
  Forall in_unit_range raw ->
  StronglySorted conf_ge raw ->
  NoDup (map scientific_name raw) ->
  Predict.predict_from_file None (Predict.RawDetections raw)
  = Predict.Responded (Predict.Ok200 raw) /\
  Predict.predict_from_stream None (Predict.RawDetections raw)
  = Predict.Responded (Predict.Ok200 raw).
Proof.
  intros Hrange Hs Hnd. destruct (predict_validated raw Hrange) as [Hfile Hstream].
  rewrite (response_fixed raw Hs Hnd) in Hfile, Hstream. now split.
Qed.

(** The selection of the endpoints is idempotent: applied to a list it
    returned, it returns that list. *)
Lemma response_idempotent (raw : list Detection) :
  Predict.response (Predict.response raw) = Predict.response raw.
Proof.
  apply response_fixed; [apply response_sorted|].
  rewrite response_firsts. apply firsts_NoDup.
Qed.

Lemma X19_witness :
  let early := mkDetection "Parus major" "Great Tit" "tit" (9 # 10) 3 6 in
  let late := mkDetection "Parus major" "Great Tit" "tit" (9 # 10) 6 9 in
  let faint := mkDetection "Parus major" "Great Tit" "tit" (4 # 10) 0 3 in
  let wren := mkDetection "Troglodytes troglodytes" "Eurasian Wren" "wren" (6 # 10) 0 3 in
  exists rest, List.filter (rivals early) [faint; early; wren; late] = early :: rest.
Proof.
  cbn zeta.
  apply (X19_ties_go_to_the_earliest
           [mkDetection "Parus major" "Great Tit" "tit" (4 # 10) 0 3;
            mkDetection "Parus major" "Great Tit" "tit" (9 # 10) 3 6;
            mkDetection "Troglodytes troglodytes" "Eurasian Wren" "wren" (6 # 10) 0 3;
            mkDetection "Parus major" "Great Tit" "tit" (9 # 10) 6 9]
           [mkDetection "Parus major" "Great Tit" "tit" (9 # 10) 3 6;
            mkDetection "Troglodytes troglodytes" "Eurasian Wren" "wren" (6 # 10) 0 3]).
  - left. reflexivity.
  - left. reflexivity.
Defined.

Lemma X20_witness :
  let tit := mkDetection "Parus major" "Great Tit" "tit" (9 # 10) 3 6 in
  let wren := mkDetection "Troglodytes troglodytes" "Eurasian Wren" "wren" (6 # 10) 0 3 in
  Predict.predict_from_file None (Predict.RawDetections [tit; wren])
  = Predict.Responded (Predict.Ok200 [tit; wren]) /\
  Predict.predict_from_stream None (Predict.RawDetections [tit; wren])
  = Predict.Responded (Predict.Ok200 [tit; wren]).
Proof.
  cbn zeta.
  apply (X20_sorted_distinct_species_unchanged
           [mkDetection "Parus major" "Great Tit" "tit" (9 # 10) 3 6;
            mkDetection "Troglodytes troglodytes" "Eurasian Wren" "wren" (6 # 10) 0 3]).
  - repeat (apply Forall_cons; split); try apply Forall_nil_2;
      unfold in_unit_range; cbn; split; discriminate.
  - repeat constructor. unfold conf_ge. cbn. discriminate.
  - cbn [map scientific_name]. apply NoDup_cons. split.
    + intros H. apply list_elem_of_In in H. destruct H as [H|[]]. discriminate.
    + apply NoDup_cons. split; [intros H; apply list_elem_of_In in H; destruct H | constructor].
Defined.

End MoreResponseTheorems.

(** * The one-shot endpoints with their temporary file *)

Section UploadFacts.
Import Upload.

Lemma serve_saved_disk tmp_path detail upload analysis disk :
  snd (serve tmp_path detail upload Saved analysis disk) = delete tmp_path disk.
Proof.
  unfold serve, os_remove. rewrite lookup_insert_eq.
  destruct analysis as [e|raw]; [|destruct (Detection_all _)]; cbn [snd];
    apply delete_insert_eq.
Qed.

Lemma serve_agrees tmp_path detail upload save analysis disk :
  plausible analysis ->
  fst (serve tmp_path detail upload save analysis disk)
  = Predict.Responded (answer detail (save_failure save) analysis).
Proof.
  intros Hok. unfold serve, os_remove, answer.
  destruct save as [e|written e|]; cbn [save_failure fst]; try reflexivity.
  rewrite lookup_insert_eq. destruct analysis as [e|raw]; [reflexivity|].
  cbn [plausible] in Hok.
  assert (H : Detection_all (Predict.response raw) = Some (Predict.response raw))
    by (apply Detection_all_Some; split; [reflexivity | now apply response_in_unit_range]).
  now rewrite H.
Qed.

(** The responses of [Upload] are those of [Predict]: the temporary file
    has no part in them. *)
Lemma serve_file tmp_path upload save analysis disk :
  fst (serve tmp_path "Failed to save uploaded file: " upload save analysis disk)
  = Predict.predict_from_file (save_failure save) analysis.
Proof.
  unfold serve, os_remove, Predict.predict_from_file.
  destruct save as [e|written e|]; cbn [save_failure fst]; try reflexivity.
  rewrite lookup_insert_eq. destruct analysis as [e|raw]; [reflexivity|].
  destruct (Detection_all (Predict.response raw)); reflexivity.
Qed.

Lemma serve_stream tmp_path upload save analysis disk :
  fst (serve tmp_path "Failed to save stream data: " upload save analysis disk)
  = Predict.predict_from_stream (save_failure save) analysis.
Proof.
  unfold serve, os_remove, Predict.predict_from_stream.
  destruct save as [e|written e|]; cbn [save_failure fst]; try reflexivity.
  rewrite lookup_insert_eq. destruct analysis as [e|raw]; [reflexivity|].
  destruct (Detection_all (Predict.response raw)); reflexivity.
Qed.

Lemma serve_ok tmp_path detail upload save analysis disk body :
  fst (serve tmp_path detail upload save analysis disk) = Predict.Responded (Predict.Ok200 body) ->
  save = Saved /\
  exists raw,
    analysis = Predict.RawDetections raw /\
    body = Predict.response raw /\
    Forall in_unit_range body.
Proof.
  unfold serve, os_remove.
  destruct save as [e|written e|]; cbn [fst]; try discriminate.
  rewrite lookup_insert_eq. destruct analysis as [e|raw]; [discriminate|].
  destruct (Detection_all (Predict.response raw)) as [b|] eqn:Hb; [|discriminate].
  cbn [fst]. intros [= <-]. apply Detection_all_Some in Hb. destruct Hb as [-> Hall].
  eauto.
Qed.

End UploadFacts.

Section UploadTheorems.
Import Upload.

(** X21: when the name chosen for the temporary file is free, the
    endpoints leave the disk as they found it, whether the analysis
    succeeds, the analysis raises or the response fails validation, with one
    exception: when the copy of the upload raises midway, the partial file
    stays. *)
Theorem X21_only_a_failed_copy_leaves_a_file (hex filename : string)
    (upload : list Byte.byte) (save : save_outcome)
    (analysis : Predict.analysis_outcome) (disk : gmap string (list Byte.byte)) :
  disk !! path_join TMP_DIR (hex ++ "_" ++ filename)%string = None ->
  disk !! path_join TMP_DIR (hex ++ "_stream.wav")%string = None ->
  snd (predict_from_file hex filename upload save analysis disk)
  = match save with
    | WriteFailed written _ =>
        <[path_join TMP_DIR (hex ++ "_" ++ filename)%string := written]> disk
    | _ => disk
    end /\
  snd (predict_from_stream hex upload save analysis disk)
  = match save with
    | WriteFailed written _ =>
        <[path_join TMP_DIR (hex ++ "_stream.wav")%string := written]> disk
    | _ => disk
    end.
Proof.
  intros Hfile Hstream. unfold predict_from_file, predict_from_stream.
  destruct save as [e|written e|]; try (split; reflexivity).
  rewrite !serve_saved_disk. split; now apply delete_id.
Qed.

(** X22: when the engine returns confidences within [0, 1], what the
    endpoints answer does not depend on the disk, the upload or the file
    name: it is the response computed from the save failure, if any, and the
    analysis alone, a 500 with the error or a 200 with the per-species
    selection; it is the answer of the endpoints of [Predict]. *)
Theorem X22_response_depends_on_outcomes_only (hex filename : string)
    (upload : list Byte.byte) (save : save_outcome)
    (analysis : Predict.analysis_outcome) (disk : gmap string (list Byte.byte)) :
  plausible analysis ->
  (fst (predict_from_file hex filename upload save analysis disk)
   = Predict.Responded
       (answer "Failed to save uploaded file: " (save_failure save) analysis) /\
   fst (predict_from_file hex filename upload save analysis disk)
   = Predict.predict_from_file (save_failure save) analysis) /\
  (fst (predict_from_stream hex upload save analysis disk)
   = Predict.Responded
       (answer "Failed to save stream data: " (save_failure save) analysis) /\
   fst (predict_from_stream hex upload save analysis disk)
   = Predict.predict_from_stream (save_failure save) analysis).
Proof.
  intros Hok. unfold predict_from_file, predict_from_stream.
  split; (split; [now apply serve_agrees | first [apply serve_file | apply serve_stream]]).
Qed.

(** X23: an answer with status 200 is given only when the upload was saved
    and the analysis returned detections; its body is the selection of one
    best detection per species, and every confidence in it lies within
    [0, 1]. *)
Theorem X23_ok_body_is_validated (hex filename : string) (upload : list Byte.byte)
    (save : save_outcome) (analysis : Predict.analysis_outcome)
    (disk : gmap string (list Byte.byte)) (body : list Detection) :
  fst (predict_from_file hex filename upload save analysis disk)
    = Predict.Responded (Predict.Ok200 body) \/
  fst (predict_from_stream hex upload save analysis disk)
    = Predict.Responded (Predict.Ok200 body) ->
  save = Saved /\
  exists raw,
    analysis = Predict.RawDetections raw /\
    body = Predict.response raw /\
    Forall in_unit_range body.
Proof. intros [H|H]; exact (serve_ok _ _ _ _ _ _ _ H). Qed.

Lemma X21_witness :
  snd (predict_from_file "0f3a" "dawn.wav" [Byte.x52; Byte.x49] Saved
         (Predict.AnalysisFailed "no audio") ∅)
  = ∅ /\
  snd (predict_from_stream "0f3a" [Byte.x52; Byte.x49] Saved
         (Predict.AnalysisFailed "no audio") ∅)
  = ∅.
Proof.
  apply (X21_only_a_failed_copy_leaves_a_file "0f3a" "dawn.wav" [Byte.x52; Byte.x49] Saved
           (Predict.AnalysisFailed "no audio") ∅); apply lookup_empty.
Defined.

Lemma X22_witness :
  let tit := mkDetection "Parus major" "Great Tit" "tit" (9 # 10) 3 6 in
  let faint := mkDetection "Parus major" "Great Tit" "tit" (4 # 10) 0 3 in
  (fst (predict_from_file "0f3a" "dawn.wav" [Byte.x52; Byte.x49] Saved
          (Predict.RawDetections [faint; tit]) ∅)
   = Predict.Responded
       (answer "Failed to save uploaded file: " (save_failure Saved)
          (Predict.RawDetections [faint; tit])) /\
   fst (predict_from_file "0f3a" "dawn.wav" [Byte.x52; Byte.x49] Saved
          (Predict.RawDetections [faint; tit]) ∅)
   = Predict.predict_from_file (save_failure Saved) (Predict.RawDetections [faint; tit])) /\
  (fst (predict_from_stream "0f3a" [Byte.x52; Byte.x49] Saved
          (Predict.RawDetections [faint; tit]) ∅)
   = Predict.Responded
       (answer "Failed to save stream data: " (save_failure Saved)
          (Predict.RawDetections [faint; tit])) /\
   fst (predict_from_stream "0f3a" [Byte.x52; Byte.x49] Saved
          (Predict.RawDetections [faint; tit]) ∅)
   = Predict.predict_from_stream (save_failure Saved) (Predict.RawDetections [faint; tit])).
Proof.
  cbn zeta.
  apply (X22_response_depends_on_outcomes_only "0f3a" "dawn.wav" [Byte.x52; Byte.x49] Saved
           (Predict.RawDetections
              [mkDetection "Parus major" "Great Tit" "tit" (4 # 10) 0 3;
               mkDetection "Parus major" "Great Tit" "tit" (9 # 10) 3 6]) ∅).
  cbn [plausible]. repeat (apply Forall_cons; split); try apply Forall_nil_2;
    unfold in_unit_range; cbn; split; discriminate.
Defined.

Lemma X23_witness :
  let tit := mkDetection "Parus major" "Great Tit" "tit" (9 # 10) 3 6 in
  let faint := mkDetection "Parus major" "Great Tit" "tit" (4 # 10) 0 3 in
  Saved = Saved /\
  exists raw,
    Predict.RawDetections [faint; tit] = Predict.RawDetections raw /\
    [tit] = Predict.response raw /\
    Forall in_unit_range [tit].
Proof.
  cbn zeta.
  apply (X23_ok_body_is_validated "0f3a" "dawn.wav" [Byte.x52; Byte.x49] Saved
           (Predict.RawDetections
              [mkDetection "Parus major" "Great Tit" "tit" (4 # 10) 0 3;
               mkDetection "Parus major" "Great Tit" "tit" (9 # 10) 3 6]) ∅).
  left. reflexivity.
Defined.

End UploadTheorems.

(** * The streaming client *)

Section ClientFacts.
Import Client.

Lemma firstn_plus {A} (a b : nat) (l : list A) :
  firstn (a + b) l = firstn a l ++ firstn b (skipn a l).
Proof.
  revert l. induction a as [|a IH]; intros [|x l]; cbn; try reflexivity.
  - now rewrite firstn_nil.
  - f_equal. apply IH.
Qed.

Lemma len_slice b lo hi :
  0 <= lo <= len b -> lo <= hi ->
  len (slice b lo hi) = Z.min (hi - lo) (len b - lo).
Proof.
  intros Hlo Hhi. unfold slice, len in *. rewrite length_take, length_drop. lia.
Qed.

Lemma slice_app b lo mid hi :
  0 <= lo <= mid -> mid <= hi ->
  slice b lo mid ++ slice b mid hi = slice b lo hi.
Proof.
  intros Hlo Hhi. unfold slice.
  replace (Z.to_nat (hi - lo)) with (Z.to_nat (mid - lo) + Z.to_nat (hi - mid))%nat by lia.
  replace (Z.to_nat mid) with (Z.to_nat lo + Z.to_nat (mid - lo))%nat by lia.
  rewrite <- drop_drop. symmetry. apply firstn_plus.
Qed.

Lemma slice_clamp b lo hi :
  0 <= lo <= len b -> lo <= hi ->
  slice b lo hi = slice b lo (Z.min hi (len b)).
Proof.
  intros Hlo Hhi. destruct (Z.le_gt_cases hi (len b)) as [H|H].
  - now rewrite Z.min_l.
  - rewrite Z.min_r by lia. unfold slice, len in *.
    rewrite !take_ge; [reflexivity| |]; rewrite length_drop; lia.
Qed.

Lemma slice_empty b lo : slice b lo lo = [].
Proof. unfold slice. now rewrite Z.sub_diag. Qed.

Lemma slice_from_0 b n : slice b 0 n = firstn (Z.to_nat n) b.
Proof. unfold slice. now rewrite Z.sub_0_r. Qed.

Lemma chunks_app a b : chunks (a ++ b) = chunks a ++ chunks b.
Proof.
  induction a as [|e a IH]; [reflexivity|].
  destruct e; cbn; rewrite IH; reflexivity.
Qed.

Lemma chunks_sent cs : chunks (map SentBytes cs) = cs.
Proof. induction cs as [|c cs IH]; cbn; [|rewrite IH]; reflexivity. Qed.

(** The chunk of one pass. *)
Lemma chunk_of_pass b i :
  0 <= i -> i < len b ->
  let chunk := slice b i (i + chunk_size) in
  i + len chunk = Z.min (len b) (i + chunk_size) /\
  chunk = slice b i (i + len chunk) /\
  proper_chunk chunk.
Proof.
  intros H0 Hlt. cbn zeta.
  assert (Hlen : len (slice b i (i + chunk_size)) = Z.min chunk_size (len b - i))
    by (rewrite len_slice; unfold chunk_size; [f_equal|..]; lia).
  split; [lia|]. split.
  - rewrite Hlen. rewrite (slice_clamp b i (i + chunk_size)) by (unfold chunk_size; lia).
    f_equal. lia.
  - unfold proper_chunk. rewrite Hlen. unfold chunk_size. lia.
Qed.

(** What the loop does from any state within the data. *)
Lemma while_loop_inv pcm passes s :
  0 <= idx s <= len pcm ->
  exists cs tail,
    let r := while_loop pcm passes s in
    log (snd r) = log s ++ map SentBytes cs ++ tail /\
    (tail = [] \/ exists resp, fst r = Returned /\ tail = [PrintedReceived resp]) /\
    (length cs <= length passes)%nat /\
    idx (snd r) = Z.min (len pcm) (idx s + chunk_size * Z.of_nat (length cs)) /\
    (cs = [] \/ idx s + chunk_size * (Z.of_nat (length cs) - 1) < len pcm) /\
    (fst r = LoopEnded -> idx (snd r) = len pcm) /\
    concat cs = slice pcm (idx s) (idx (snd r)) /\
    Forall proper_chunk cs.
Proof.
  revert s. induction passes as [|p rest IH]; intros s Hidx; cbn [while_loop].
  - exists [], []. cbn zeta.
    destruct (Z.ltb_spec (idx s) (len pcm)) as [Htest|Htest]; cbn [fst snd map app length];
      rewrite app_nil_r, slice_empty;
      (repeat split; auto; try lia; intros; first [discriminate | lia]).
  - cbn zeta. destruct (Z.ltb_spec (idx s) (len pcm)) as [Htest|Htest].
    2:{ exists [], []. cbn [fst snd map app length]. rewrite app_nil_r, slice_empty.
        repeat split; auto; try lia; intros; lia. }
    destruct (chunk_of_pass pcm (idx s) (proj1 Hidx) Htest) as (Hnext & Hchunk & Hproper).
    set (chunk := slice pcm (idx s) (idx s + chunk_size)) in *.
    pose proof Hproper as Hsize. unfold proper_chunk in Hsize.
    assert (Hone : forall tail' c,
              (tail' = [] \/ exists resp, c = Returned /\ tail' = [PrintedReceived resp]) ->
              (c = LoopEnded -> idx s + len chunk = len pcm) ->
              exists cs tail,
                (log s ++ [SentBytes chunk]) ++ tail' = log s ++ map SentBytes cs ++ tail /\
                (tail = [] \/ exists resp, c = Returned /\ tail = [PrintedReceived resp]) /\
                (length cs <= S (length rest))%nat /\
                idx s + len chunk
                = Z.min (len pcm) (idx s + chunk_size * Z.of_nat (length cs)) /\
                (cs = [] \/ idx s + chunk_size * (Z.of_nat (length cs) - 1) < len pcm) /\
                (c = LoopEnded -> idx s + len chunk = len pcm) /\
                concat cs = slice pcm (idx s) (idx s + len chunk) /\
                Forall proper_chunk cs).
    { intros tail' c Htail Hc. exists [chunk], tail'. cbn [map length concat app].
      rewrite <- app_assoc, app_nil_r. cbn [app].
      repeat split; auto; try lia.
      all: try (rewrite Hnext; unfold chunk_size; lia).
      all: try (right; lia). }
    destruct (sending p) as [|e].
    + destruct (polling p) as [resp| |e]; cbn [fst snd emit idx log].
      * apply Hone; [right; eauto | discriminate].
      * destruct (IH (mkState (idx s + len chunk) (log s ++ [SentBytes chunk])))
          as (cs & tail & Hlog & Htail & Hlen & Hi & Hlast & Hend & Hcat & Hall);
          [cbn [idx]; lia|].
        cbn zeta in *. cbn [idx log] in *.
        exists (chunk :: cs), tail. cbn [map length concat].
        rewrite Hlog, <- app_assoc. cbn [app].
        split; [reflexivity|]. split; [exact Htail|]. split; [lia|].
        split; [rewrite Hi; destruct Hlast as [->|Hlast]; cbn [length];
                unfold chunk_size in *; lia|].
        split; [right; destruct Hlast as [->|Hlast]; cbn [length];
                unfold chunk_size in *; lia|].
        split; [exact Hend|]. split.
        -- rewrite Hcat.
           etransitivity; [|apply slice_app with (mid := idx s + len chunk)];
             [f_equal; exact Hchunk | lia |].
           rewrite Hi. destruct Hlast as [->|Hlast]; cbn [length];
             unfold chunk_size in *; lia.
        -- now apply Forall_cons.
      * rewrite <- (app_nil_r (log s ++ [SentBytes chunk])).
        apply (Hone [] (Raised e)); [left; reflexivity | discriminate].
    + exists [], []. cbn [fst snd map app length]. rewrite app_nil_r, slice_empty.
      repeat split; auto; try lia; discriminate.
Qed.

Lemma pieces_snoc b lo n :
  pieces b lo (S n)
  = pieces b lo n
    ++ [slice b (lo + chunk_size * Z.of_nat n) (lo + chunk_size * Z.of_nat n + chunk_size)].
Proof.
  revert lo. induction n as [|n IH]; intros lo.
  - cbn [pieces app]. now rewrite Z.mul_0_r, Z.add_0_r.
  - change (pieces b lo (S (S n)))
      with (slice b lo (lo + chunk_size) :: pieces b (lo + chunk_size) (S n)).
    rewrite IH. cbn [pieces app]. do 4 f_equal; unfold chunk_size; lia.
Qed.

(** Passes in which whole chunks are sent and no response arrives. *)
Lemma while_loop_unanswered pcm n rest s :
  0 <= idx s -> idx s + chunk_size * Z.of_nat n <= len pcm ->
  while_loop pcm (repeat unanswered n ++ rest) s
  = while_loop pcm rest
      (mkState (idx s + chunk_size * Z.of_nat n)
         (log s ++ map SentBytes (pieces pcm (idx s) n))).
Proof.
  revert s. induction n as [|n IH]; intros s H0 Hle.
  - cbn [repeat app pieces map]. rewrite app_nil_r, Z.mul_0_r, Z.add_0_r.
    now destruct s.
  - cbn [repeat app]. cbn [while_loop]. cbn zeta.
    assert (Htest : (idx s <? len pcm) = true) by (apply Z.ltb_lt; unfold chunk_size in *; lia).
    rewrite Htest. cbn [unanswered sending polling].
    assert (Hlen : len (slice pcm (idx s) (idx s + chunk_size)) = chunk_size)
      by (rewrite len_slice; unfold chunk_size in *; lia).
    rewrite Hlen, IH; cbn [idx log]; [|unfold chunk_size in *; lia..].
    cbn [pieces map]. rewrite <- app_assoc. cbn [app]. f_equal. f_equal.
    unfold chunk_size. lia.
Qed.

(** With enough unanswered passes the loop ends. *)
Lemma while_loop_ends pcm n s :
  0 <= idx s <= len pcm -> len pcm <= idx s + chunk_size * Z.of_nat n ->
  fst (while_loop pcm (repeat unanswered n) s) = LoopEnded.
Proof.
  revert s. induction n as [|n IH]; intros s Hidx Hle; cbn [repeat while_loop]; cbn zeta.
  - assert (Htest : (idx s <? len pcm) = false) by (apply Z.ltb_ge; lia).
    now rewrite Htest.
  - destruct (idx s <? len pcm) eqn:Htest; [|reflexivity].
    apply Z.ltb_lt in Htest. cbn [unanswered sending polling].
    destruct (chunk_of_pass pcm (idx s) (proj1 Hidx) Htest) as (Hnext & _ & _).
    apply IH; cbn [idx]; unfold chunk_size in *; lia.
Qed.

Lemma chunk_count idx k total :
  0 <= total ->
  idx = Z.min total (chunk_size * Z.of_nat k) ->
  (k = 0%nat \/ chunk_size * (Z.of_nat k - 1) < total) ->
  k = Z.to_nat ((idx + 47999) / 48000).
Proof.
  unfold chunk_size. intros Htot Hidx Hlast.
  assert (H : (idx + 47999) / 48000 = Z.of_nat k); [|lia].
  symmetry. apply Z.div_unique with (r := idx + 47999 - 48000 * Z.of_nat k); lia.
Qed.

End ClientFacts.

Section ClientTheorems.
Import Client.

Lemma client_len_nonneg b : 0 <= len b.
Proof. unfold len. lia. Qed.

Lemma realtime_client_loop pcm r :
  init_send r = Delivered ->
  let w := while_loop pcm (passes r) (mkState 0 (preamble pcm)) in
  idx (snd (realtime_client pcm r)) = idx (snd w) /\
  chunks (log (snd (realtime_client pcm r))) = chunks (log (snd w)).
Proof.
  intros Hinit. cbn zeta. unfold realtime_client. rewrite Hinit.
  fold (preamble pcm).
  destruct (while_loop pcm (passes r) (mkState 0 (preamble pcm))) as [[] s];
    try (split; reflexivity).
  destruct (last_recv r); cbn [snd emit idx log]; rewrite ?chunks_app; cbn [chunks];
    rewrite ?app_nil_r; split; reflexivity.
Qed.

Lemma realtime_client_sent (pcm_bytes : list Byte.byte) (r : run) :
  let s' := snd (realtime_client pcm_bytes r) in
  let sent := chunks (log s') in
  0 <= idx s' <= len pcm_bytes /\
  concat sent = firstn (Z.to_nat (idx s')) pcm_bytes /\
  length sent = Z.to_nat ((idx s' + 47999) / 48000) /\
  Forall proper_chunk sent /\
  (length sent <= length (passes r))%nat.
Proof.
  cbn zeta. pose proof (client_len_nonneg pcm_bytes) as Hlen.
  destruct (init_send r) as [|e] eqn:Hinit.
  - destruct (realtime_client_loop pcm_bytes r Hinit) as [-> ->].
    destruct (while_loop_inv pcm_bytes (passes r) (mkState 0 (preamble pcm_bytes)))
      as (cs & tail & Hlog & Htail & Hn & Hi & Hlast & _ & Hcat & Hall);
      [cbn [idx]; lia|].
    cbn zeta in *. cbn [idx log] in *.
    assert (Hsent : chunks (log (snd (while_loop pcm_bytes (passes r)
                                        (mkState 0 (preamble pcm_bytes))))) = cs).
    { rewrite Hlog, !chunks_app, chunks_sent. cbn [preamble chunks app].
      destruct Htail as [->|(resp & _ & ->)]; cbn [chunks]; apply app_nil_r. }
    rewrite Hsent. split; [rewrite Hi; unfold chunk_size; lia|].
    split; [rewrite Hcat; apply slice_from_0|].
    split; [apply (chunk_count _ _ (len pcm_bytes)); auto;
            destruct Hlast as [->|Hlast]; [left; reflexivity | right; lia]|].
    split; assumption.
  - unfold realtime_client. rewrite Hinit. cbn [snd idx log chunks concat length].
    repeat split; try lia; constructor.
Qed.

(** X24: whatever the sends and receives do, what the client has sent of the
    audio is the first [idx] bytes of the PCM data, in order and without gap
    or repetition, cut into the fewest chunks of at most 48000 bytes; no
    chunk is empty, and no pass sends more than one. *)
Theorem X24_client_sends_the_data_in_order (pcm_bytes : list Byte.byte) (r : run) :
  let s' := snd (realtime_client pcm_bytes r) in
  let sent := chunks (log s') in
  0 <= idx s' <= len pcm_bytes /\
  concat sent = firstn (Z.to_nat (idx s')) pcm_bytes /\
  length sent = Z.to_nat ((idx s' + 47999) / 48000) /\
  Forall proper_chunk sent /\
  (length sent <= length (passes r))%nat.
Proof. exact (realtime_client_sent pcm_bytes r). Qed.

(** X25: the client stops at the first response, whatever it says: when a
    response arrives after the chunk of pass [n + 1], the client has sent
    the first [n + 1] chunks of the data and returns; the rest of the audio,
    if any, is never sent. *)
Theorem X25_client_stops_at_the_first_response (pcm_bytes : list Byte.byte) (n : nat)
    (resp : string) (rest : list pass) (final : recv_outcome) :
  chunk_size * Z.of_nat n < len pcm_bytes ->
  realtime_client pcm_bytes
    (mkRun Delivered (repeat unanswered n ++ answered resp :: rest) final)
  = (Returned,
     mkState (Z.min (len pcm_bytes) (chunk_size * (Z.of_nat n + 1)))
       (preamble pcm_bytes ++ map SentBytes (pieces pcm_bytes 0 (S n))
        ++ [PrintedReceived resp])).
Proof.
  intros Hlt. unfold realtime_client. cbn [init_send passes].
  fold (preamble pcm_bytes).
  rewrite while_loop_unanswered by (cbn [idx]; lia).
  cbn [idx log while_loop]. cbn zeta. cbn [idx log].
  assert (Htest : (0 + chunk_size * Z.of_nat n <? len pcm_bytes) = true)
    by (apply Z.ltb_lt; lia).
  rewrite Htest. cbn [answered sending polling emit idx log].
  destruct (chunk_of_pass pcm_bytes (0 + chunk_size * Z.of_nat n)) as (Hnext & _ & _);
    [unfold chunk_size; lia | lia |].
  rewrite Hnext, pieces_snoc, map_app. unfold emit. cbn [idx log].
  rewrite <- !app_assoc. cbn [map app].
  f_equal. f_equal. unfold chunk_size. lia.
Qed.

(** X26: a client that never gets a response before the end sends the whole
    PCM data, in the fewest chunks of at most 48000 bytes, then waits for one
    last message and returns, whether that message comes or the wait
    raises. *)
Theorem X26_unanswered_client_sends_everything (pcm_bytes : list Byte.byte) (n : nat)
    (final : recv_outcome) :
  len pcm_bytes <= chunk_size * Z.of_nat n ->
  exists cs,
    realtime_client pcm_bytes (mkRun Delivered (repeat unanswered n) final)
    = (Returned,
       mkState (len pcm_bytes)
         (preamble pcm_bytes ++ map SentBytes cs
          ++ PrintedFinished
             :: match final with
                | Response resp => [PrintedReceivedAtEnd resp]
                | _ => []
                end)) /\
    concat cs = pcm_bytes /\
    length cs = Z.to_nat ((len pcm_bytes + 47999) / 48000).
Proof.
  intros Hle. pose proof (client_len_nonneg pcm_bytes) as Hlen.
  pose proof (while_loop_ends pcm_bytes n (mkState 0 (preamble pcm_bytes))) as Hend.
  destruct (while_loop_inv pcm_bytes (repeat unanswered n) (mkState 0 (preamble pcm_bytes)))
    as (cs & tail & Hlog & Htail & _ & Hi & Hlast & Hfull & Hcat & _);
    [cbn [idx]; lia|].
  cbn zeta in *. cbn [idx log] in *.
  specialize (Hend ltac:(lia) ltac:(lia)). specialize (Hfull Hend).
  exists cs. unfold realtime_client. cbn [init_send passes last_recv].
  fold (preamble pcm_bytes).
  destruct (while_loop pcm_bytes (repeat unanswered n) (mkState 0 (preamble pcm_bytes)))
    as [c [i l]]. cbn [fst snd idx log] in *. subst c i l.
  destruct Htail as [->|(resp & Hc & _)]; [|discriminate].
  split; [|split].
  - destruct final; unfold emit; cbn [idx log]; rewrite Hfull, <- !app_assoc; reflexivity.
  - rewrite Hcat, Hfull, slice_from_0. apply firstn_all2. unfold len. lia.
  - apply (chunk_count _ _ (len pcm_bytes)); auto; try lia.
    destruct Hlast as [->|Hlast]; [left; reflexivity | right; lia].
Qed.

End ClientTheorems.

Section ClientWitnesses.
Import Client.

Lemma X25_witness :
  realtime_client (silence 50000)
    (mkRun Delivered (repeat unanswered 1 ++ answered "detections" :: [unanswered])
       TimeoutError)
  = (Returned,
     mkState (Z.min (len (silence 50000)) (chunk_size * (Z.of_nat 1 + 1)))
       (preamble (silence 50000) ++ map SentBytes (pieces (silence 50000) 0 2)
        ++ [PrintedReceived "detections"])).
Proof.
  apply (X25_client_stops_at_the_first_response (silence 50000) 1 "detections"
           [unanswered] TimeoutError).
  change (len (silence 50000)) with (Streaming.len (silence 50000)).
  rewrite (len_silence 50000); unfold chunk_size; lia.
Defined.

Lemma X26_witness :
  exists cs,
    realtime_client (silence 50000) (mkRun Delivered (repeat unanswered 2) (Response "bye"))
    = (Returned,
       mkState (len (silence 50000))
         (preamble (silence 50000) ++ map SentBytes cs
          ++ [PrintedFinished; PrintedReceivedAtEnd "bye"])) /\
    concat cs = silence 50000 /\
    length cs = Z.to_nat ((len (silence 50000) + 47999) / 48000).
Proof.
  apply (X26_unanswered_client_sends_everything (silence 50000) 2 (Response "bye")).
  change (len (silence 50000)) with (Streaming.len (silence 50000)).
  rewrite (len_silence 50000); unfold chunk_size; lia.
Defined.

End ClientWitnesses.
